(** * The Blockchain controller of the Ethereum chain simulator

    A shallow embedding of the controller class [Blockchain]
    (fill / save / emit of mined blocks, the clock offset, snapshots and
    revert, call simulation) and of the miner option definitions
    [MinerOptions], followed by the properties proved about them.

    Conventions of the embedding.
    - A JavaScript [number] that holds a count of seconds or milliseconds,
      and every [bigint], is a [Z].
    - A [Buffer] is the list of its bytes.  A header field that holds a
      big-endian quantity is kept as the [Quantity] it was built from.
    - A possibly absent value ([null], [undefined], an optional field) is
      an [option].
    - A JavaScript string whose length the code reads is the list of its
      UTF-16 code units; the text of a message is a [string].
    - Every method is a function from the controller's state to a
      completion (returned value or thrown error) and the next state.
      What the source awaits is run to completion in place: the model is
      the sequential one, a call finishes before the next starts.
    - Calls that leave the controller (logger, console, event emission,
      the scheduler's next tick, the VM) are recorded, in order, in the
      [trace] field of the state. *)

From stdpp Require Import gmap strings list fin_maps pretty sorting.
From Stdlib Require Import ZArith Lia.

Open Scope Z_scope.

(** ** Values shared by the whole model *)

Abbreviation Buffer := (list Z) (only parsing).

(** [Quantity]: the wrapped value is a bigint or null. *)
Definition Quantity := option Z.

Definition Quantity_from (n : Z) : Quantity := Some n.
Definition Quantity_toBigInt (q : Quantity) : option Z := q.

(** JavaScript's [x || 0n] on a [bigint | null]: null and [0n] are falsy. *)
Definition bigint_or (x : option Z) (d : Z) : Z :=
  match x with
  | Some v => if v =? 0 then d else v
  | None => d
  end.

(** JavaScript's [x || d] on an object that is either present (truthy) or
    undefined. *)
Definition object_or {A : Type} (x : option A) (d : A) : A :=
  match x with
  | Some v => v
  | None => d
  end.

(** [Data.from]: a byte string; ["0x"] is the empty one. *)
Definition Data := list Z.
Definition Data_from (b : Buffer) : Data := b.
Definition Data_0x : Buffer := [].

(** A JavaScript string whose length the code reads: the list of its
    UTF-16 code units, each in 0..65535, so that [length] is JavaScript's
    [.length]. *)
Definition JsString := list Z.

(** The JavaScript string of an ASCII literal. *)
Definition JsString_of (s : string) : JsString :=
  map (fun c => Z.of_nat (Ascii.nat_of_ascii c)) (String.list_ascii_of_string s).

Definition is_high_surrogate (c : Z) : bool := (55296 <=? c) && (c <=? 56319).
Definition is_low_surrogate (c : Z) : bool := (56320 <=? c) && (c <=? 57343).

(** The number of bytes of a string, as the specification counts the
    extra data: the length of the string's UTF-8 encoding, the one
    [Buffer.byteLength] gives.  A code unit below 0x80 is one byte, one
    below 0x800 two; a surrogate pair is one code point of four bytes;
    every other code unit is three bytes (a lone surrogate is encoded as
    U+FFFD). *)
Fixpoint byteLength_utf8 (s : JsString) : Z :=
  match s with
  | [] => 0
  | c :: rest =>
    if c <? 128 then 1 + byteLength_utf8 rest
    else if c <? 2048 then 2 + byteLength_utf8 rest
    else
      match rest with
      | d :: rest' =>
        if is_high_surrogate c && is_low_surrogate d
        then 4 + byteLength_utf8 rest'
        else 3 + byteLength_utf8 rest
      | [] => 3
      end
  end.

(** ** Errors and completions *)

Inductive ERROR :=
| OUT_OF_GAS
| STACK_UNDERFLOW
| STACK_OVERFLOW
| INVALID_JUMP
| INVALID_OPCODE
| OUT_OF_RANGE
| REVERT
| STATIC_STATE_CHANGE
| INTERNAL_ERROR
| CREATE_COLLISION
| STOP
| REFUND_EXHAUSTED.

Record VmError := mkVmError { vm_error : ERROR }.

Record RunState := { programCounter : Z }.

Record ExecResult := {
  runState : option RunState;
  exceptionError : option VmError;
  returnValue : option Buffer
}.

Record EVMResult := { execResult : ExecResult }.

Inductive RETURN_TYPES := TRANSACTION_HASH | RETURN_VALUE.

Inductive JsError :=
| Error (message : string)
| RuntimeError (hash : Buffer) (result : EVMResult) (returnType : RETURN_TYPES)
| TypeError (message : string)
| NotFoundError (key : Buffer).

Inductive Completion (A : Type) :=
| Returned (value : A)
| Threw (error : JsError).
Arguments Returned {A} value.
Arguments Threw {A} error.

Definition threw {A : Type} (c : Completion A) : Prop :=
  match c with
  | Threw _ => True
  | Returned _ => False
  end.

(** ** Miner options (options/miner-options.ts) *)

Module Options.

(** One entry of a [Definitions] table: how a raw value is normalized,
    the default when there is one and the legacy name when there is one. *)
Record Definition_ (raw T : Type) := {
  normalize : raw -> Completion T;
  default : option (unit -> T);
  legacyName : option string
}.
Arguments normalize {raw T} d.
Arguments default {raw T} d.
Arguments legacyName {raw T} d.

(** [const normalize = rawInput => rawInput]. *)
Definition normalize_id {T : Type} (rawInput : T) : Completion T :=
  Returned rawInput.

Definition normalize_Quantity (rawInput : Z) : Completion Quantity :=
  Returned (Quantity_from rawInput).

Definition MAX_SAFE_INTEGER : Z := 9007199254740991.

(** An address is its 20 bytes. *)
Definition Address := list Z.

(** Modelled from the spec: [utils.ACCOUNT_ZERO] is declared outside the
    files at hand; the option's default is "the zero address", twenty
    zero bytes (the option's own doc comment gives the default as
    0x0000000000000000000000000000000000000000). *)
Definition ACCOUNT_ZERO : Buffer := replicate 20 0.

Definition Address_from (b : Buffer) : Address := b.

(** The raw type of [coinbase]: an address or an account index. *)
Inductive Coinbase :=
| CoinbaseAddress (a : Address)
| CoinbaseIndex (i : Z).

(** [extraData.normalize]: [rawType.length] is the number of UTF-16 code
    units of the string. *)
Definition extraData_normalize (rawType : JsString) : Completion JsString :=
  if (32 <? Z.of_nat (length rawType)) then
    Threw (Error ("extra exceeds max length. "
                    +:+ pretty (length rawType) +:+ " > 32"))
  else Returned rawType.

Record MinerDefinitions := {
  def_blockTime : Definition_ Z Z;
  def_gasPrice : Definition_ Z Quantity;
  def_blockGasLimit : Definition_ Z Quantity;
  def_defaultTransactionGasLimit : Definition_ Z Quantity;
  def_callGasLimit : Definition_ Z Quantity;
  def_coinbase : Definition_ Coinbase Coinbase;
  def_legacyInstamine : Definition_ bool bool;
  def_extraData : Definition_ JsString JsString
}.

Definition MinerOptions : MinerDefinitions := {|
  def_blockTime := {|
    normalize := normalize_id;
    default := Some (fun _ => 0);
    legacyName := Some "blockTime"%string |};
  def_gasPrice := {|
    normalize := normalize_Quantity;
    default := Some (fun _ => Quantity_from 2000000000);
    legacyName := Some "gasPrice"%string |};
  def_blockGasLimit := {|
    normalize := normalize_Quantity;
    default := Some (fun _ => Quantity_from 12000000);
    legacyName := Some "gasLimit"%string |};
  def_defaultTransactionGasLimit := {|
    normalize := normalize_Quantity;
    default := Some (fun _ => Quantity_from 90000);
    legacyName := None |};
  def_callGasLimit := {|
    normalize := normalize_Quantity;
    default := Some (fun _ => Quantity_from MAX_SAFE_INTEGER);
    legacyName := Some "callGasLimit"%string |};
  def_coinbase := {|
    normalize := normalize_id;
    default := Some (fun _ => CoinbaseAddress (Address_from ACCOUNT_ZERO));
    legacyName := None |};
  def_legacyInstamine := {|
    normalize := normalize_id;
    default := Some (fun _ => false);
    legacyName := None |};
  def_extraData := {|
    normalize := extraData_normalize;
    default := None;
    legacyName := None |}
|}.

(** The value a definition gives an option that was not supplied. *)
Definition default_value {raw T : Type} (d : Definition_ raw T) : option T :=
  match default d with
  | Some f => Some (f tt)
  | None => None
  end.

(** The normalized miner options the controller receives. *)
Record MinerConfig := {
  blockTime : Z;
  gasPrice : Quantity;
  blockGasLimit : Quantity;
  defaultTransactionGasLimit : Quantity;
  callGasLimit : Quantity;
  miner_coinbase : Coinbase;
  legacyInstamine : bool;
  extraData : option JsString
}.

Inductive Hardfork :=
| constantinople | byzantium | petersburg | istanbul | muirGlacier.

Record ChainConfig := {
  vmErrorsOnRPCResponse : bool;
  allowUnlimitedContractSize : bool;
  time : option Z;
  hardfork : Hardfork
}.

Record EthereumInternalOptions := {
  miner : MinerConfig;
  chain : ChainConfig
}.

(** The miner options when nothing is supplied: every default of the
    table, and no [extraData]. *)
Definition defaultMinerConfig : MinerConfig := {|
  blockTime := object_or (default_value (def_blockTime MinerOptions)) 0;
  gasPrice := object_or (default_value (def_gasPrice MinerOptions)) None;
  blockGasLimit :=
    object_or (default_value (def_blockGasLimit MinerOptions)) None;
  defaultTransactionGasLimit :=
    object_or (default_value (def_defaultTransactionGasLimit MinerOptions)) None;
  callGasLimit :=
    object_or (default_value (def_callGasLimit MinerOptions)) None;
  miner_coinbase :=
    object_or (default_value (def_coinbase MinerOptions)) (CoinbaseIndex 0);
  legacyInstamine :=
    object_or (default_value (def_legacyInstamine MinerOptions)) true;
  extraData := default_value (def_extraData MinerOptions)
|}.

End Options.

(** ** Blocks, transactions and the stores *)

Record Header := {
  parentHash : Buffer;
  number : Quantity;
  coinbase : Buffer;
  timestamp : Z;
  gasLimit : Quantity;
  transactionsTrie : Buffer;
  receiptTrie : Buffer;
  stateRoot : Buffer;
  gasUsed : Quantity;
  extraData : Buffer
}.

Record TransactionReceipt := {
  receipt_raw : list Buffer;
  contractAddress : option Buffer
}.

Record Transaction := {
  tx_hash : Buffer;
  tx_raw : list Buffer;
  tx_type : Z;
  tx_from : Buffer;
  tx_receipt : TransactionReceipt;
  tx_logs : list Buffer;
  execException : option JsError
}.

(** [block.value]: the header and the transactions in execution order. *)
Record Block := {
  header : Header;
  transactions : list Transaction
}.

(** What the miner hands over with its [block] event. *)
Record BlockData := {
  bd_timestamp : Z;
  bd_transactionsTrie : Buffer;
  bd_receiptTrie : Buffer;
  bd_gasUsed : Z;
  bd_blockTransactions : list Transaction
}.

Record BlockLogs := {
  bl_blockHash : Buffer;
  bl_blockNumber : Quantity;
  bl_logs : list (Z * Buffer * Buffer)
}.

Definition BlockLogs_create (blockHash : Buffer) : BlockLogs :=
  {| bl_blockHash := blockHash; bl_blockNumber := None; bl_logs := [] |}.

Definition BlockLogs_append (index : Z) (hash : Buffer) (bl : BlockLogs)
    (log : Buffer) : BlockLogs :=
  {| bl_blockHash := bl_blockHash bl;
     bl_blockNumber := bl_blockNumber bl;
     bl_logs := bl_logs bl ++ [(index, hash, log)] |}.

Definition BlockLogs_set_blockNumber (q : Quantity) (bl : BlockLogs) : BlockLogs :=
  {| bl_blockHash := bl_blockHash bl;
     bl_blockNumber := q;
     bl_logs := bl_logs bl |}.

(** The fields [rlpEncode] receives when a mined transaction is stored:
    the raw fields, then the block context. *)
Record StoredTransaction := {
  stored_raw : list Buffer;
  stored_blockHash : Buffer;
  stored_blockNumber : Quantity;
  stored_index : Z;
  stored_type : Z;
  stored_from : Buffer
}.

(** The blocks store is read and written under two kinds of key: the
    block number ([inl]) and the block hash ([inr]). *)
Abbreviation BlockKey := (Z + list Z)%type (only parsing).

Record Database := {
  db_blocks : gmap (Z + list Z) Block;
  db_transactions : gmap (list Z) StoredTransaction;
  db_transactionReceipts : gmap (list Z) TransactionReceipt;
  db_blockLogs : gmap Z BlockLogs;
  db_trie : gmap (list Z) (list Z)
}.

Record TransactionPool := {
  pool_transactions : list Transaction;
  pool_paused : bool
}.

(** A snapshot: the head block and the clock offset at capture time. *)
Record Snapshot := {
  snap_block : Block;
  snap_timeAdjustment : Z
}.

(** [Snapshots]: the live snapshots, the hashes of the blocks added since
    the first of them (newest first; [null] is the empty list) and the
    handle that removes the listener which maintains that list. *)
Record Snapshots := {
  snaps : list Snapshot;
  blocks : list Buffer;
  unsubscribeFromBlocks : option nat
}.

(** ** The VM as the controller sees it *)

(** A VM instance: the state trie it was created over (the shared node
    store and the root of this view), the contract-size switch and the
    block resolver it was given. *)
Record VM := {
  vm_trie_db : gmap (list Z) (list Z);
  vm_trie_root : Buffer;
  vm_allowUnlimitedContractSize : bool;
  vm_getBlock : Z -> option Block
}.

Record RunCallOpts := {
  rc_caller : Buffer;
  rc_data : option Buffer;
  rc_gasPrice : Quantity;
  rc_gasLimit : Quantity;
  rc_to : option Buffer;
  rc_value : option Quantity;
  rc_block : Block
}.

Record SimulationTransaction := {
  sim_from : Buffer;
  sim_to : option Buffer;
  sim_gas : Z;
  sim_gasPrice : Quantity;
  sim_value : option Quantity;
  sim_data : option Buffer;
  sim_block : Block
}.

(** ** Everything the controller reaches outside itself *)

Inductive LogLine :=
| LogSavedSnapshot (id : Z)
| LogRevertingToSnapshot (snapshotId : Z)
| LogTransaction (hash : Buffer) (receipt : TransactionReceipt)
    (blockNumber : Quantity) (timestamp : Z) (error : option JsError).

Inductive Event :=
| EvLog (line : LogLine)
| EvConsoleInfo (message : string)
| EvFinalize (tx : Buffer) (status : string) (error : option JsError)
| EvNextTick
| EvEmitBlockLogs (blockLogs : BlockLogs)
| EvEmitBlock (block : Block)
| EvRunCall (vm : VM) (opts : RunCallOpts)
| EvMinerMine (nextBlock : Block) (maxTransactions : Z) (onlyOneBlock : bool).

(** The collaborators whose code lies outside the controller: the header
    hash, the intrinsic-gas rule, the VM's [runCall] (its result, and the
    node store as the call leaves it) and the header a freshly created
    block starts from. *)
Class Collaborators := {
  header_hash : Header -> Buffer;
  calculateIntrinsicGas : option Buffer -> Options.Hardfork -> Z;
  runCall : VM -> RunCallOpts -> EVMResult * gmap (list Z) (list Z);
  emptyHeader : Header
}.

(** ** The controller's state *)

Module Status.
Definition started : Z := 1.
Definition starting : Z := 2.
Definition stopped : Z := 4.
Definition stopping : Z := 8.
Definition paused : Z := 16.
End Status.

Record Blockchain := {
  state : Z;
  options : Options.EthereumInternalOptions;
  instamine : bool;
  coinbaseAddress : Options.Address;
  latest : Block;
  earliest : Block;
  database : Database;
  trie_root : Buffer;
  sm_cache : gmap (list Z) (list Z);
  sm_storageTries : gmap (list Z) (list Z);
  allowUnlimitedContractSize_vm : bool;
  timeAdjustment : Z;
  snapshots : Snapshots;
  block_listeners : list nat;
  next_listener : nat;
  pool : TransactionPool;
  miner_paused : bool;
  trace : list Event
}.

(** Assignment to one field of the controller. *)
Definition set_state (v : Z) (this : Blockchain) : Blockchain :=
  {|
     state := v;
     options := options this;
     instamine := instamine this;
     coinbaseAddress := coinbaseAddress this;
     latest := latest this;
     earliest := earliest this;
     database := database this;
     trie_root := trie_root this;
     sm_cache := sm_cache this;
     sm_storageTries := sm_storageTries this;
     allowUnlimitedContractSize_vm := allowUnlimitedContractSize_vm this;
     timeAdjustment := timeAdjustment this;
     snapshots := snapshots this;
     block_listeners := block_listeners this;
     next_listener := next_listener this;
     pool := pool this;
     miner_paused := miner_paused this;
     trace := trace this |}.

Definition set_latest (v : Block) (this : Blockchain) : Blockchain :=
  {|
     state := state this;
     options := options this;
     instamine := instamine this;
     coinbaseAddress := coinbaseAddress this;
     latest := v;
     earliest := earliest this;
     database := database this;
     trie_root := trie_root this;
     sm_cache := sm_cache this;
     sm_storageTries := sm_storageTries this;
     allowUnlimitedContractSize_vm := allowUnlimitedContractSize_vm this;
     timeAdjustment := timeAdjustment this;
     snapshots := snapshots this;
     block_listeners := block_listeners this;
     next_listener := next_listener this;
     pool := pool this;
     miner_paused := miner_paused this;
     trace := trace this |}.

Definition set_earliest (v : Block) (this : Blockchain) : Blockchain :=
  {|
     state := state this;
     options := options this;
     instamine := instamine this;
     coinbaseAddress := coinbaseAddress this;
     latest := latest this;
     earliest := v;
     database := database this;
     trie_root := trie_root this;
     sm_cache := sm_cache this;
     sm_storageTries := sm_storageTries this;
     allowUnlimitedContractSize_vm := allowUnlimitedContractSize_vm this;
     timeAdjustment := timeAdjustment this;
     snapshots := snapshots this;
     block_listeners := block_listeners this;
     next_listener := next_listener this;
     pool := pool this;
     miner_paused := miner_paused this;
     trace := trace this |}.

Definition set_database (v : Database) (this : Blockchain) : Blockchain :=
  {|
     state := state this;
     options := options this;
     instamine := instamine this;
     coinbaseAddress := coinbaseAddress this;
     latest := latest this;
     earliest := earliest this;
     database := v;
     trie_root := trie_root this;
     sm_cache := sm_cache this;
     sm_storageTries := sm_storageTries this;
     allowUnlimitedContractSize_vm := allowUnlimitedContractSize_vm this;
     timeAdjustment := timeAdjustment this;
     snapshots := snapshots this;
     block_listeners := block_listeners this;
     next_listener := next_listener this;
     pool := pool this;
     miner_paused := miner_paused this;
     trace := trace this |}.

Definition set_trie_root (v : Buffer) (this : Blockchain) : Blockchain :=
  {|
     state := state this;
     options := options this;
     instamine := instamine this;
     coinbaseAddress := coinbaseAddress this;
     latest := latest this;
     earliest := earliest this;
     database := database this;
     trie_root := v;
     sm_cache := sm_cache this;
     sm_storageTries := sm_storageTries this;
     allowUnlimitedContractSize_vm := allowUnlimitedContractSize_vm this;
     timeAdjustment := timeAdjustment this;
     snapshots := snapshots this;
     block_listeners := block_listeners this;
     next_listener := next_listener this;
     pool := pool this;
     miner_paused := miner_paused this;
     trace := trace this |}.

Definition set_sm_cache (v : gmap (list Z) (list Z)) (this : Blockchain) : Blockchain :=
  {|
     state := state this;
     options := options this;
     instamine := instamine this;
     coinbaseAddress := coinbaseAddress this;
     latest := latest this;
     earliest := earliest this;
     database := database this;
     trie_root := trie_root this;
     sm_cache := v;
     sm_storageTries := sm_storageTries this;
     allowUnlimitedContractSize_vm := allowUnlimitedContractSize_vm this;
     timeAdjustment := timeAdjustment this;
     snapshots := snapshots this;
     block_listeners := block_listeners this;
     next_listener := next_listener this;
     pool := pool this;
     miner_paused := miner_paused this;
     trace := trace this |}.

Definition set_sm_storageTries (v : gmap (list Z) (list Z)) (this : Blockchain) : Blockchain :=
  {|
     state := state this;
     options := options this;
     instamine := instamine this;
     coinbaseAddress := coinbaseAddress this;
     latest := latest this;
     earliest := earliest this;
     database := database this;
     trie_root := trie_root this;
     sm_cache := sm_cache this;
     sm_storageTries := v;
     allowUnlimitedContractSize_vm := allowUnlimitedContractSize_vm this;
     timeAdjustment := timeAdjustment this;
     snapshots := snapshots this;
     block_listeners := block_listeners this;
     next_listener := next_listener this;
     pool := pool this;
     miner_paused := miner_paused this;
     trace := trace this |}.

Definition set_timeAdjustment (v : Z) (this : Blockchain) : Blockchain :=
  {|
     state := state this;
     options := options this;
     instamine := instamine this;
     coinbaseAddress := coinbaseAddress this;
     latest := latest this;
     earliest := earliest this;
     database := database this;
     trie_root := trie_root this;
     sm_cache := sm_cache this;
     sm_storageTries := sm_storageTries this;
     allowUnlimitedContractSize_vm := allowUnlimitedContractSize_vm this;
     timeAdjustment := v;
     snapshots := snapshots this;
     block_listeners := block_listeners this;
     next_listener := next_listener this;
     pool := pool this;
     miner_paused := miner_paused this;
     trace := trace this |}.

Definition set_snapshots (v : Snapshots) (this : Blockchain) : Blockchain :=
  {|
     state := state this;
     options := options this;
     instamine := instamine this;
     coinbaseAddress := coinbaseAddress this;
     latest := latest this;
     earliest := earliest this;
     database := database this;
     trie_root := trie_root this;
     sm_cache := sm_cache this;
     sm_storageTries := sm_storageTries this;
     allowUnlimitedContractSize_vm := allowUnlimitedContractSize_vm this;
     timeAdjustment := timeAdjustment this;
     snapshots := v;
     block_listeners := block_listeners this;
     next_listener := next_listener this;
     pool := pool this;
     miner_paused := miner_paused this;
     trace := trace this |}.

Definition set_block_listeners (v : list nat) (this : Blockchain) : Blockchain :=
  {|
     state := state this;
     options := options this;
     instamine := instamine this;
     coinbaseAddress := coinbaseAddress this;
     latest := latest this;
     earliest := earliest this;
     database := database this;
     trie_root := trie_root this;
     sm_cache := sm_cache this;
     sm_storageTries := sm_storageTries this;
     allowUnlimitedContractSize_vm := allowUnlimitedContractSize_vm this;
     timeAdjustment := timeAdjustment this;
     snapshots := snapshots this;
     block_listeners := v;
     next_listener := next_listener this;
     pool := pool this;
     miner_paused := miner_paused this;
     trace := trace this |}.

Definition set_next_listener (v : nat) (this : Blockchain) : Blockchain :=
  {|
     state := state this;
     options := options this;
     instamine := instamine this;
     coinbaseAddress := coinbaseAddress this;
     latest := latest this;
     earliest := earliest this;
     database := database this;
     trie_root := trie_root this;
     sm_cache := sm_cache this;
     sm_storageTries := sm_storageTries this;
     allowUnlimitedContractSize_vm := allowUnlimitedContractSize_vm this;
     timeAdjustment := timeAdjustment this;
     snapshots := snapshots this;
     block_listeners := block_listeners this;
     next_listener := v;
     pool := pool this;
     miner_paused := miner_paused this;
     trace := trace this |}.

Definition set_pool (v : TransactionPool) (this : Blockchain) : Blockchain :=
  {|
     state := state this;
     options := options this;
     instamine := instamine this;
     coinbaseAddress := coinbaseAddress this;
     latest := latest this;
     earliest := earliest this;
     database := database this;
     trie_root := trie_root this;
     sm_cache := sm_cache this;
     sm_storageTries := sm_storageTries this;
     allowUnlimitedContractSize_vm := allowUnlimitedContractSize_vm this;
     timeAdjustment := timeAdjustment this;
     snapshots := snapshots this;
     block_listeners := block_listeners this;
     next_listener := next_listener this;
     pool := v;
     miner_paused := miner_paused this;
     trace := trace this |}.

Definition set_miner_paused (v : bool) (this : Blockchain) : Blockchain :=
  {|
     state := state this;
     options := options this;
     instamine := instamine this;
     coinbaseAddress := coinbaseAddress this;
     latest := latest this;
     earliest := earliest this;
     database := database this;
     trie_root := trie_root this;
     sm_cache := sm_cache this;
     sm_storageTries := sm_storageTries this;
     allowUnlimitedContractSize_vm := allowUnlimitedContractSize_vm this;
     timeAdjustment := timeAdjustment this;
     snapshots := snapshots this;
     block_listeners := block_listeners this;
     next_listener := next_listener this;
     pool := pool this;
     miner_paused := v;
     trace := trace this |}.

Definition set_trace (v : list Event) (this : Blockchain) : Blockchain :=
  {|
     state := state this;
     options := options this;
     instamine := instamine this;
     coinbaseAddress := coinbaseAddress this;
     latest := latest this;
     earliest := earliest this;
     database := database this;
     trie_root := trie_root this;
     sm_cache := sm_cache this;
     sm_storageTries := sm_storageTries this;
     allowUnlimitedContractSize_vm := allowUnlimitedContractSize_vm this;
     timeAdjustment := timeAdjustment this;
     snapshots := snapshots this;
     block_listeners := block_listeners this;
     next_listener := next_listener this;
     pool := pool this;
     miner_paused := miner_paused this;
     trace := v |}.

Definition emitted (e : list Event) (this : Blockchain) : Blockchain :=
  set_trace (trace this ++ e) this.

Definition set_db_blocks (v : gmap (Z + list Z) Block) (db : Database) : Database :=
  {| db_blocks := v;
     db_transactions := db_transactions db;
     db_transactionReceipts := db_transactionReceipts db;
     db_blockLogs := db_blockLogs db;
     db_trie := db_trie db |}.

Definition set_db_trie (v : gmap (list Z) (list Z)) (db : Database) : Database :=
  {| db_blocks := db_blocks db;
     db_transactions := db_transactions db;
     db_transactionReceipts := db_transactionReceipts db;
     db_blockLogs := db_blockLogs db;
     db_trie := v |}.

(** ** The controller's methods *)

Section Controller.
Context `{Collaborators}.

Definition header_number (h : Header) : Z :=
  bigint_or (Quantity_toBigInt (number h)) 0.

Definition Block_hash (b : Block) : Buffer := header_hash (header b).

(** *** The blocks manager *)

(** The header fields a caller of [createBlock] may supply. *)
Record HeaderInit := {
  init_parentHash : option Buffer;
  init_number : option Quantity;
  init_coinbase : option Buffer;
  init_timestamp : option Z;
  init_gasLimit : option Quantity;
  init_transactionsTrie : option Buffer;
  init_receiptTrie : option Buffer;
  init_stateRoot : option Buffer;
  init_gasUsed : option Quantity;
  init_extraData : option Buffer
}.

(** Modelled from the spec: [BlockManager.createBlock] (and
    [BlockManager.next], used for the genesis block) is declared outside
    the files at hand.  It builds a block without transactions whose header
    carries the supplied fields; a field that is not supplied keeps the
    value a fresh header has. *)
Definition createBlock (init : HeaderInit) : Block :=
  {| header := {|
       parentHash := object_or (init_parentHash init) (parentHash emptyHeader);
       number := object_or (init_number init) (number emptyHeader);
       coinbase := object_or (init_coinbase init) (coinbase emptyHeader);
       timestamp := object_or (init_timestamp init) (timestamp emptyHeader);
       gasLimit := object_or (init_gasLimit init) (gasLimit emptyHeader);
       transactionsTrie :=
         object_or (init_transactionsTrie init) (transactionsTrie emptyHeader);
       receiptTrie := object_or (init_receiptTrie init) (receiptTrie emptyHeader);
       stateRoot := object_or (init_stateRoot init) (stateRoot emptyHeader);
       gasUsed := object_or (init_gasUsed init) (gasUsed emptyHeader);
       extraData := object_or (init_extraData init) (extraData emptyHeader) |};
     transactions := [] |}.

(** Modelled from the spec: [BlockManager.putBlock] is declared outside
    the files at hand; "write the block (by number and by hash)". *)
Definition putBlock (block : Block) (db : Database) : Database :=
  set_db_blocks
    (<[inl (header_number (header block)) := block]>
       (<[inr (Block_hash block) := block]> (db_blocks db))) db.

(** Modelled from the spec: [BlockManager.getByHash] is declared outside
    the files at hand; a read of the blocks store by hash, which rejects
    when nothing is stored under the hash. *)
Definition getByHash (hash : Buffer) (db : Database) : Completion Block :=
  match db_blocks db !! inr hash with
  | Some b => Returned b
  | None => Threw (NotFoundError hash)
  end.

(** *** fill, save, emit *)

Definition fillNewBlock (this : Blockchain) (blockData : BlockData) : Block :=
  let prevBlock := latest this in
  let prevHeader := header prevBlock in
  let prevNumber := bigint_or (Quantity_toBigInt (number prevHeader)) 0 in
  let block := createBlock {|
    init_parentHash := Some (header_hash prevHeader);
    init_number := Some (Quantity_from (prevNumber + 1));
    init_coinbase := Some (coinbaseAddress this);
    init_timestamp := Some (bd_timestamp blockData);
    init_gasLimit := Some (Options.blockGasLimit (Options.miner (options this)));
    init_transactionsTrie := Some (bd_transactionsTrie blockData);
    init_receiptTrie := Some (bd_receiptTrie blockData);
    init_stateRoot := Some (trie_root this);
    init_gasUsed := Some (Quantity_from (bd_gasUsed blockData));
    init_extraData := None |} in
  {| header := header block;
     transactions := bd_blockTransactions blockData |}.

(** The body of the [forEach] over the block's transactions in
    [#saveNewBlock]: [i] is the index of the first transaction of [txs]. *)
Fixpoint saveTransactions (blockHash : Buffer) (blockNumber : Quantity)
    (timestamp : Z) (i : Z) (txs : list Transaction)
    (acc : Database * BlockLogs * list Event)
    : Database * BlockLogs * list Event :=
  match txs with
  | [] => acc
  | tx :: rest =>
    let '(db, blockLogs, log) := acc in
    let hash := tx_hash tx in
    let txAndExtraData := {|
      stored_raw := tx_raw tx;
      stored_blockHash := blockHash;
      stored_blockNumber := blockNumber;
      stored_index := i;
      stored_type := tx_type tx;
      stored_from := tx_from tx |} in
    let receipt := tx_receipt tx in
    let db := {|
      db_blocks := db_blocks db;
      db_transactions := <[hash := txAndExtraData]> (db_transactions db);
      db_transactionReceipts := <[hash := receipt]> (db_transactionReceipts db);
      db_blockLogs := db_blockLogs db;
      db_trie := db_trie db |} in
    let blockLogs := fold_left (BlockLogs_append i hash) (tx_logs tx) blockLogs in
    let error := execException tx in
    saveTransactions blockHash blockNumber timestamp (i + 1) rest
      (db, blockLogs,
       log ++ [EvLog (LogTransaction hash receipt blockNumber timestamp error)])
  end.

Definition saveNewBlock (this : Blockchain) (block : Block)
    : Blockchain * (Block * BlockLogs) :=
  let this := set_latest block this in
  let value := block in
  let header := header value in
  let blockHash := Block_hash value in
  let blockNumber := number header in
  let timestamp := timestamp header * 1000 in
  let '(db, blockLogs, log) :=
    saveTransactions blockHash blockNumber timestamp 0 (transactions value)
      (database this, BlockLogs_create blockHash, []) in
  let blockLogs := BlockLogs_set_blockNumber blockNumber blockLogs in
  let db := {|
    db_blocks := db_blocks db;
    db_transactions := db_transactions db;
    db_transactionReceipts := db_transactionReceipts db;
    db_blockLogs := <[header_number header := blockLogs]> (db_blockLogs db);
    db_trie := db_trie db |} in
  let db := putBlock block db in
  (emitted log (set_database db this), (block, blockLogs)).

(** The listener [snapshot()] registers on [block]: it pushes the hash of
    the new block on [snapshots.blocks]. *)
Definition snapshot_listener (block : Block) (this : Blockchain) : Blockchain :=
  let s := snapshots this in
  set_snapshots
    {| snaps := snaps s;
       blocks := Block_hash block :: blocks s;
       unsubscribeFromBlocks := unsubscribeFromBlocks s |} this.

(** [this.emit("block", block)]: the emission, then every registered
    listener in registration order. *)
Definition emit_block (block : Block) (this : Blockchain) : Blockchain :=
  fold_left (fun this _ => snapshot_listener block this)
    (block_listeners this) (emitted [EvEmitBlock block] this).

Definition emit_blockLogs (blockLogs : BlockLogs) (this : Blockchain) : Blockchain :=
  emitted [EvEmitBlockLogs blockLogs] this.

Definition emitNewBlock (this : Blockchain) (blockInfo : Block * BlockLogs)
    : Blockchain * (Block * BlockLogs) :=
  let opts := options this in
  let vmErrorsOnRPCResponse := Options.vmErrorsOnRPCResponse (Options.chain opts) in
  let '(block, blockLogs) := blockInfo in
  let this :=
    emitted
      (map (fun transaction =>
              let error :=
                if vmErrorsOnRPCResponse then execException transaction else None in
              EvFinalize (tx_hash transaction) "confirmed" error)
           (transactions block)) this in
  if instamine this && Options.legacyInstamine (Options.miner opts) then
    let this := emitted [EvNextTick] this in
    (emit_block block (emit_blockLogs blockLogs this), blockInfo)
  else
    (emit_block block (emit_blockLogs blockLogs this), blockInfo).

Definition handleNewBlockData (this : Blockchain) (blockData : BlockData)
    : Blockchain * (Block * BlockLogs) :=
  let block := fillNewBlock this blockData in
  let '(this, saved) := saveNewBlock this block in
  emitNewBlock this saved.

(** *** The clock *)

(** The clock's values are whole numbers: [Date.now()] and the timestamps
    are whole milliseconds and the amounts added are taken to be whole
    too.  On them JavaScript's number arithmetic is the integer one as
    long as the values stay within the safe-integer range; fractions, NaN
    and larger magnitudes are outside the model. *)
Definition currentTime (now : Z) (this : Blockchain) : Z :=
  (now + timeAdjustment this) `div` 1000.

Definition increaseTime (seconds : Z) (this : Blockchain) : Z * Blockchain :=
  let seconds := if seconds <? 0 then 0 else seconds in
  let v := timeAdjustment this + seconds in
  (v, set_timeAdjustment v this).

Definition setTime (timestamp : Z) (now : Z) (this : Blockchain) : Z * Blockchain :=
  let v := timestamp - now in
  (v, set_timeAdjustment v this).

Definition readyNextBlock (this : Blockchain) (now : Z) (previousBlock : Block)
    (timestamp : option Z) : Block :=
  let previousHeader := header previousBlock in
  let previousNumber := bigint_or (Quantity_toBigInt (number previousHeader)) 0 in
  createBlock {|
    init_parentHash := Some (header_hash previousHeader);
    init_number := Some (Quantity_from (previousNumber + 1));
    init_coinbase := None;
    init_timestamp :=
      Some (match timestamp with
            | None => currentTime now this
            | Some t => t
            end);
    init_gasLimit := Some (Options.blockGasLimit (Options.miner (options this)));
    init_transactionsTrie := None;
    init_receiptTrie := None;
    init_stateRoot := None;
    init_gasUsed := None;
    init_extraData := None |}.

(** [mine]: the candidate block is readied on the head and handed to the
    miner. *)
Definition mine (now : Z) (maxTransactions : Z) (timestamp : option Z)
    (onlyOneBlock : bool) (this : Blockchain) : Blockchain :=
  let nextBlock := readyNextBlock this now (latest this) timestamp in
  emitted [EvMinerMine nextBlock maxTransactions onlyOneBlock] this.

(** *** Snapshots and revert *)

(** [this.on("block", listener)]: the listener is registered and the
    function that removes it is returned. *)
Definition on_block (this : Blockchain) : nat * Blockchain :=
  let id := next_listener this in
  (id, set_next_listener (S id) (set_block_listeners (block_listeners this ++ [id]) this)).

(** Calling the function [on] returned: the listener it stands for is
    removed, if it is still registered. *)
Definition off_block (id : nat) (this : Blockchain) : Blockchain :=
  set_block_listeners (filter (fun l => l <> id) (block_listeners this)) this.

Definition snapshot (this : Blockchain) : Z * Blockchain :=
  let s := snapshots this in
  let snaps' :=
    snaps s ++ [{| snap_block := latest this;
                   snap_timeAdjustment := timeAdjustment this |}] in
  let id := Z.of_nat (length snaps') in
  let this :=
    set_snapshots {| snaps := snaps';
                     blocks := blocks s;
                     unsubscribeFromBlocks := unsubscribeFromBlocks s |} this in
  let this :=
    if id =? 1 then
      let '(unsubscribe, this) := on_block this in
      let s := snapshots this in
      set_snapshots {| snaps := snaps s;
                       blocks := blocks s;
                       unsubscribeFromBlocks := Some unsubscribe |} this
    else this in
  (id, emitted [EvLog (LogSavedSnapshot id)] this).

(** The [while] loop of [revert]: the hashes met before the snapshot's
    hash, and the list from the snapshot's hash on ([null] when it is not
    met). *)
Fixpoint walkBlocks (snapshotHash : Buffer) (blockList : list Buffer)
    : list Buffer * list Buffer :=
  match blockList with
  | [] => ([], [])
  | current :: next =>
    if bool_decide (current = snapshotHash) then ([], blockList)
    else
      let '(found, rest) := walkBlocks snapshotHash next in
      (current :: found, rest)
  end.

(** [Promise.all] over the reads of the blocks: all of them, or the first
    rejection. *)
Fixpoint getAllByHash (hashes : list Buffer) (db : Database)
    : Completion (list Block) :=
  match hashes with
  | [] => Returned []
  | h :: rest =>
    match getByHash h db with
    | Threw e => Threw e
    | Returned b =>
      match getAllByHash rest db with
      | Threw e => Threw e
      | Returned bs => Returned (b :: bs)
      end
    end
  end.

Definition deleteTransaction (db : Database) (tx : Transaction) : Database :=
  let txHash := tx_hash tx in
  {| db_blocks := db_blocks db;
     db_transactions := delete txHash (db_transactions db);
     db_transactionReceipts := delete txHash (db_transactionReceipts db);
     db_blockLogs := db_blockLogs db;
     db_trie := db_trie db |}.

Definition deleteBlock (db : Database) (value : Block) : Database :=
  let db := fold_left deleteTransaction (transactions value) db in
  {| db_blocks :=
       delete (inr (header_hash (header value)))
         (delete (inl (header_number (header value))) (db_blocks db));
     db_transactions := db_transactions db;
     db_transactionReceipts := db_transactionReceipts db;
     db_blockLogs := delete (header_number (header value)) (db_blockLogs db);
     db_trie := db_trie db |}.

Definition deleteBlockData (blocksToDelete : list Block) (this : Blockchain)
    : Blockchain :=
  set_database (fold_left deleteBlock blocksToDelete (database this)) this.

Definition setStateRootSync (stateRoot : Buffer) (this : Blockchain) : Blockchain :=
  set_sm_storageTries ∅ (set_sm_cache ∅ (set_trie_root stateRoot this)).

Definition pool_pause (this : Blockchain) : Blockchain :=
  set_pool {| pool_transactions := pool_transactions (pool this);
              pool_paused := true |} this.

Definition pool_resume (this : Blockchain) : Blockchain :=
  set_pool {| pool_transactions := pool_transactions (pool this);
              pool_paused := false |} this.

Definition pool_clear (this : Blockchain) : Blockchain :=
  set_pool {| pool_transactions := [];
              pool_paused := pool_paused (pool this) |} this.

(** [revert].  The index [Number(rawValue - 1n)] is exact below 2^53 and
    beyond every array length above it, so the read [snaps[snapshotIndex]]
    is the list lookup at [rawValue - 1]. *)
Definition revert (snapshotId : Quantity) (this : Blockchain)
    : Completion bool * Blockchain :=
  match snapshotId with
  | None => (Threw (Error "invalid snapshotId"), this)
  | Some rawValue =>
    let this := emitted [EvLog (LogRevertingToSnapshot rawValue)] this in
    if rawValue <? 1 then (Returned false, this)
    else
      let snapshotIndex := Z.to_nat (rawValue - 1) in
      match snaps (snapshots this) !! snapshotIndex with
      | None => (Returned false, this)
      | Some snapshot =>
        let this := pool_pause this in
        let this := set_miner_paused true this in
        let this := pool_clear this in
        let currentHash := header_hash (header (latest this)) in
        let snapshotBlock := snap_block snapshot in
        let snapshotHeader := header snapshotBlock in
        let snapshotHash := header_hash snapshotHeader in
        let snaps' := take snapshotIndex (snaps (snapshots this)) in
        let this :=
          set_snapshots
            {| snaps := snaps';
               blocks := blocks (snapshots this);
               unsubscribeFromBlocks := unsubscribeFromBlocks (snapshots this) |}
            this in
        let unsubscribed :=
          if Nat.eqb (length snaps') 0 then
            match unsubscribeFromBlocks (snapshots this) with
            | None =>
              Threw (TypeError "snapshots.unsubscribeFromBlocks is not a function")
            | Some id => Returned (off_block id this)
            end
          else Returned this in
        match unsubscribed with
        | Threw e => (Threw e, this)
        | Returned this =>
          let cleaned :=
            if negb (bool_decide (currentHash = snapshotHash)) then
              let '(found, blockList) :=
                walkBlocks snapshotHash (blocks (snapshots this)) in
              let blockPromises := getAllByHash found (database this) in
              let this :=
                set_snapshots
                  {| snaps := snaps (snapshots this);
                     blocks := blockList;
                     unsubscribeFromBlocks :=
                       unsubscribeFromBlocks (snapshots this) |} this in
              match blockPromises with
              | Threw e => (Some e, this)
              | Returned blocksToDelete =>
                let this := deleteBlockData blocksToDelete this in
                let this := setStateRootSync (stateRoot snapshotHeader) this in
                (None, set_latest snapshotBlock this)
              end
            else (None, this) in
          match cleaned with
          | (Some e, this) => (Threw e, this)
          | (None, this) =>
            let this := set_timeAdjustment (snap_timeAdjustment snapshot) this in
            let this := set_miner_paused false this in
            let this := pool_resume this in
            (Returned true, this)
          end
        end
      end
  end.

(** *** Call simulation *)

Definition createVmFromStateTrie (this : Blockchain)
    (trie_db : gmap (list Z) (list Z)) (root : Buffer)
    (allowUnlimitedContractSize : bool) : VM :=
  {| vm_trie_db := trie_db;
     vm_trie_root := root;
     vm_allowUnlimitedContractSize := allowUnlimitedContractSize;
     vm_getBlock := fun n => db_blocks (database this) !! inl n |}.

Definition outOfGasResult : EVMResult :=
  {| execResult := {|
       runState := Some {| programCounter := 0 |};
       exceptionError := Some (mkVmError OUT_OF_GAS);
       returnValue := Some [] |} |}.

(** The first half of [simulateTransaction]: the value of [result] when the
    [if (gasLeft >= 0)] statement is left.  The new trie is a view of the
    database's node store, so what the call leaves in its store is what
    the database holds afterwards. *)
Definition simulationResult (transaction : SimulationTransaction)
    (parentBlock : Block) (this : Blockchain) : EVMResult * Blockchain :=
  let opts := options this in
  let data := sim_data transaction in
  let gasLeft := sim_gas transaction in
  let gasLeft :=
    gasLeft - calculateIntrinsicGas data (Options.hardfork (Options.chain opts)) in
  if 0 <=? gasLeft then
    let vm :=
      createVmFromStateTrie this (db_trie (database this))
        (stateRoot (header parentBlock)) (allowUnlimitedContractSize_vm this) in
    let callOpts := {|
      rc_caller := sim_from transaction;
      rc_data := sim_data transaction;
      rc_gasPrice := sim_gasPrice transaction;
      rc_gasLimit := Quantity_from gasLeft;
      rc_to := sim_to transaction;
      rc_value := sim_value transaction;
      rc_block := sim_block transaction |} in
    let '(result, store) := runCall vm callOpts in
    (result,
     set_database (set_db_trie store (database this))
       (emitted [EvRunCall vm callOpts] this))
  else (outOfGasResult, this).

Definition simulateTransaction (transaction : SimulationTransaction)
    (parentBlock : Block) (this : Blockchain) : Completion Data * Blockchain :=
  let '(result, this) := simulationResult transaction parentBlock this in
  match exceptionError (execResult result) with
  | Some _ =>
    if Options.vmErrorsOnRPCResponse (Options.chain (options this)) then
      let hash := [] in
      (Threw (RuntimeError hash result RETURN_VALUE), this)
    else
      (Returned (Data_from (object_or (returnValue (execResult result)) Data_0x)),
       this)
  | None =>
    (Returned (Data_from (object_or (returnValue (execResult result)) Data_0x)),
     this)
  end.

(** *** Construction *)

(** The first statements of the constructor: the mining discipline and
    the notices it prints.  No combination of options is refused. *)
Definition constructor_notices (opts : Options.EthereumInternalOptions)
    : bool * list Event :=
  let blockTime := Options.blockTime (Options.miner opts) in
  let instamine := (blockTime =? 0) || (blockTime <=? 0) in
  let legacyInstamine := Options.legacyInstamine (Options.miner opts) in
  (instamine,
   (if legacyInstamine then
      [EvConsoleInfo
         "Legacy instamining, where transactions are fully mined before the hash is returned, is deprecated and will be removed in the future."]
    else []) ++
   (if negb instamine then
      (if legacyInstamine then
         [EvConsoleInfo
            "Setting `legacyInstamine` to `true` has no effect when blockTime is non-zero"]
       else []) ++
      (if Options.vmErrorsOnRPCResponse (Options.chain opts) then
         [EvConsoleInfo
            "Setting `vmErrorsOnRPCResponse` to `true` has no effect on transactions when blockTime is non-zero"]
       else [])
    else [])).

(** [#initializeGenesisBlock]: the genesis block is created on the current
    trie root and stored. *)
Definition initializeGenesisBlock (timestamp : Z) (blockGasLimit : Quantity)
    (root : Buffer) (db : Database) : Block * Database :=
  let genesis :=
    createBlock {|
      init_parentHash := None;
      init_number := Some (Quantity_from 0);
      init_coinbase := None;
      init_timestamp := Some timestamp;
      init_gasLimit := Some blockGasLimit;
      init_transactionsTrie := None;
      init_receiptTrie := None;
      init_stateRoot := Some root;
      init_gasUsed := None;
      init_extraData := None |} in
  (genesis, putBlock genesis db).

(** The controller once the constructor's initialization has run on an
    empty database.  [accountsRoot] and [accountsNodes] are the root and
    the nodes of the trie after the initial accounts were committed. *)
Definition constructor (opts : Options.EthereumInternalOptions)
    (coinbaseAddress : Options.Address) (now : Z)
    (accountsRoot : Buffer) (accountsNodes : gmap (list Z) (list Z))
    : Blockchain :=
  let '(instamine, notices) := constructor_notices opts in
  let timeAdjustment :=
    match Options.time (Options.chain opts) with
    | Some t => t - now
    | None => 0
    end in
  let firstBlockTime :=
    match Options.time (Options.chain opts) with
    | Some t => t `div` 1000
    | None => (now + 0) `div` 1000
    end in
  let '(genesis, db) :=
    initializeGenesisBlock firstBlockTime
      (Options.blockGasLimit (Options.miner opts)) accountsRoot
      {| db_blocks := ∅; db_transactions := ∅; db_transactionReceipts := ∅;
         db_blockLogs := ∅; db_trie := accountsNodes |} in
  {| state := Status.started;
     options := opts;
     instamine := instamine;
     coinbaseAddress := coinbaseAddress;
     latest := genesis;
     earliest := genesis;
     database := db;
     trie_root := accountsRoot;
     sm_cache := ∅;
     sm_storageTries := ∅;
     allowUnlimitedContractSize_vm :=
       Options.allowUnlimitedContractSize (Options.chain opts);
     timeAdjustment := timeAdjustment;
     snapshots := {| snaps := []; blocks := []; unsubscribeFromBlocks := None |};
     block_listeners := [];
     next_listener := 0%nat;
     pool := {| pool_transactions := []; pool_paused := false |};
     miner_paused := false;
     trace := notices |}.

End Controller.

(** ** Runs of the controller *)

(** What happens to a controller, one call at a time: the public methods,
    a block delivered by the miner (the miner has run the transactions on
    the trie, which now has root [root] and the new nodes [nodes], and
    emits [blockData]), and the transaction manager changing what the pool
    holds. *)
Inductive Call :=
| CallSnapshot
| CallRevert (snapshotId : Quantity)
| CallIncreaseTime (seconds : Z)
| CallSetTime (timestamp now : Z)
| CallSimulateTransaction (transaction : SimulationTransaction) (parentBlock : Block)
| CallMine (now maxTransactions : Z) (timestamp : option Z) (onlyOneBlock : bool)
| MinerBlock (root : Buffer) (nodes : gmap (list Z) (list Z)) (blockData : BlockData)
| PoolUpdate (transactions : list Transaction).

Section Runs.
Context `{Collaborators}.

(** The delivery of a block by the miner, run to completion: the trie is
    at the miner's root, and [#handleNewBlockData] fills, saves and
    announces the block before the next call starts. *)
Definition minerBlock (root : Buffer) (nodes : gmap (list Z) (list Z))
    (blockData : BlockData) (this : Blockchain) : Blockchain :=
  let this :=
    set_database (set_db_trie (nodes ∪ db_trie (database this)) (database this))
      (set_trie_root root this) in
  fst (handleNewBlockData this blockData).

Definition step (this : Blockchain) (c : Call) : Blockchain :=
  match c with
  | CallSnapshot => snd (snapshot this)
  | CallRevert snapshotId => snd (revert snapshotId this)
  | CallIncreaseTime seconds => snd (increaseTime seconds this)
  | CallSetTime timestamp now => snd (setTime timestamp now this)
  | CallSimulateTransaction transaction parentBlock =>
    snd (simulateTransaction transaction parentBlock this)
  | CallMine now maxTransactions timestamp onlyOneBlock =>
    mine now maxTransactions timestamp onlyOneBlock this
  | MinerBlock root nodes blockData => minerBlock root nodes blockData this
  | PoolUpdate transactions =>
    set_pool {| pool_transactions := transactions;
                pool_paused := pool_paused (pool this) |} this
  end.

Definition run (calls : list Call) (this : Blockchain) : Blockchain :=
  fold_left step calls this.

(** ** Invariants of the snapshot bookkeeping *)

(** Headers with the same hash have the same number. *)
Definition hash_fixes_number : Prop :=
  forall h1 h2 : Header,
    header_hash h1 = header_hash h2 -> header_number h1 = header_number h2.

Definition block_number (b : Block) : Z := header_number (header b).

(** The blocks behind [snapshots.blocks]: each stored under its hash, in
    strictly decreasing number order from the head down, all above the
    block of the first snapshot. *)
Definition tracked (this : Blockchain) (bs : list Block) : Prop :=
  blocks (snapshots this) = map Block_hash bs /\
  Forall (fun b => db_blocks (database this) !! inr (Block_hash b) = Some b) bs /\
  StronglySorted (fun a b => block_number b < block_number a) bs /\
  Forall (fun b => block_number b <= block_number (latest this)) bs /\
  Forall (fun b => forall s, head (snaps (snapshots this)) = Some s ->
                             block_number (snap_block s) < block_number b) bs.

(** The listener is registered exactly while a snapshot is live. *)
Definition listening (this : Blockchain) : Prop :=
  match snaps (snapshots this) with
  | [] => blocks (snapshots this) = [] /\ block_listeners this = []
  | _ :: _ =>
    exists id, block_listeners this = [id] /\
               unsubscribeFromBlocks (snapshots this) = Some id
  end.

(** Snapshots are in the order of their blocks, none above the head. *)
Definition snaps_ordered (this : Blockchain) : Prop :=
  StronglySorted
    (fun a b => block_number (snap_block a) <= block_number (snap_block b))
    (snaps (snapshots this)) /\
  Forall (fun s => block_number (snap_block s) <= block_number (latest this))
    (snaps (snapshots this)).

Definition wf (this : Blockchain) : Prop :=
  (exists bs, tracked this bs) /\ listening this /\ snaps_ordered this.

(** The emissions of a trace are ordered when every [block] emission comes
    right after the [blockLogs] emission of the same block. *)
Definition emissions_ordered (t : list Event) : Prop :=
  forall (j : nat) (b : Block),
    t !! j = Some (EvEmitBlock b) ->
    exists (i : nat) (bl : BlockLogs),
      S i = j /\ t !! i = Some (EvEmitBlockLogs bl) /\
      bl_blockHash bl = Block_hash b.

Definition is_emission (e : Event) : bool :=
  match e with
  | EvEmitBlock _ | EvEmitBlockLogs _ => true
  | _ => false
  end.

End Runs.

(** A list of events without emissions. *)
Abbreviation quiet := (forallb (fun e => negb (is_emission e))) (only parsing).

(** ** A small instance of the collaborators

    Used to run the model on concrete inputs: the hash of a header is its
    number, the intrinsic gas is 21000 plus 16 per byte of data, a call
    with data reverts and a call without data succeeds, and neither
    writes to the node store. *)

Definition exampleHeader : Header :=
  {| parentHash := []; number := None; coinbase := []; timestamp := 0;
     gasLimit := None; transactionsTrie := []; receiptTrie := [];
     stateRoot := []; gasUsed := None; extraData := [] |}.

Definition exampleRunCall (vm : VM) (opts : RunCallOpts)
    : EVMResult * gmap (list Z) (list Z) :=
  match rc_data opts with
  | Some _ =>
    ({| execResult := {| runState := None;
                         exceptionError := Some (mkVmError REVERT);
                         returnValue := Some [8; 195] |} |}, vm_trie_db vm)
  | None =>
    ({| execResult := {| runState := None;
                         exceptionError := None;
                         returnValue := Some [42] |} |}, vm_trie_db vm)
  end.

Definition exampleCollaborators : Collaborators :=
  {| header_hash := fun h => [header_number h];
     calculateIntrinsicGas :=
       fun data _ =>
         21000 + 16 * Z.of_nat (length (object_or data []));
     runCall := exampleRunCall;
     emptyHeader := exampleHeader |}.

(** A VM whose call commits one node to the store of the trie it was
    given, and otherwise answers as [exampleRunCall]. *)
Definition committingRunCall (vm : VM) (opts : RunCallOpts)
    : EVMResult * gmap (list Z) (list Z) :=
  (fst (exampleRunCall vm opts), <[ [0] := [1] ]> (vm_trie_db vm)).

Definition committingCollaborators : Collaborators :=
  {| header_hash := fun h => [header_number h];
     calculateIntrinsicGas :=
       fun data _ =>
         21000 + 16 * Z.of_nat (length (object_or data []));
     runCall := committingRunCall;
     emptyHeader := exampleHeader |}.

Definition exampleOptions (blockTime : Z) (legacy vmErrors : bool)
    (extra : option string) : Options.EthereumInternalOptions :=
  {| Options.miner := {|
       Options.blockTime := blockTime;
       Options.gasPrice := Options.gasPrice Options.defaultMinerConfig;
       Options.blockGasLimit := Options.blockGasLimit Options.defaultMinerConfig;
       Options.defaultTransactionGasLimit :=
         Options.defaultTransactionGasLimit Options.defaultMinerConfig;
       Options.callGasLimit := Options.callGasLimit Options.defaultMinerConfig;
       Options.miner_coinbase := Options.miner_coinbase Options.defaultMinerConfig;
       Options.legacyInstamine := legacy;
       Options.extraData := JsString_of <$> extra |};
     Options.chain := {|
       Options.vmErrorsOnRPCResponse := vmErrors;
       Options.allowUnlimitedContractSize := false;
       Options.time := None;
       Options.hardfork := Options.muirGlacier |} |}.

(** A controller on an empty database, at wall-clock time 0. *)
Definition exampleChain (blockTime : Z) (legacy vmErrors : bool) : Blockchain :=
  @constructor exampleCollaborators (exampleOptions blockTime legacy vmErrors None)
    Options.ACCOUNT_ZERO 0 [1] ∅.

Definition exampleBlockData (t : Z) : BlockData :=
  {| bd_timestamp := t; bd_transactionsTrie := [2]; bd_receiptTrie := [3];
     bd_gasUsed := 21000; bd_blockTransactions := [] |}.

Definition exampleCall (gas : Z) (data : option Buffer) (b : Block)
    : SimulationTransaction :=
  {| sim_from := [1]; sim_to := Some [2]; sim_gas := gas;
     sim_gasPrice := Some 1; sim_value := None; sim_data := data;
     sim_block := b |}.

(** A run: a snapshot, two blocks, an hour added to the clock, a second
    snapshot and a third block. *)
Definition exampleCalls : list Call :=
  [CallSnapshot;
   MinerBlock [5] ∅ (exampleBlockData 7);
   MinerBlock [6] ∅ (exampleBlockData 9);
   CallIncreaseTime 3600;
   CallSnapshot;
   MinerBlock [7] ∅ (exampleBlockData 11)].

(** ** Pausing, automatic mining, submission and shutdown *)

(** What the lifecycle methods do outside the controller, in order. *)
Inductive Effect :=
| ConsoleLog (message : string)
| NextTickEmitPendingTransaction (transaction : Transaction)
| AwaitFinalized (transaction : Transaction)
| AwaitStart
| VmRemoveAllListeners
| PoolClearListeners
| EmitStop
| MinerClearListeners
| DatabaseClose.

Section Lifecycle.
Context `{Collaborators}.

Definition isStarted (this : Blockchain) : bool :=
  state this =? Status.started.

Definition isPaused (this : Blockchain) : bool :=
  negb (Z.land (state this) Status.paused =? 0).

Definition pause (this : Blockchain) : Blockchain :=
  set_state (Z.lor (state this) Status.paused) this.

(** [resume]: the default of [_threads] is not used; [mine(-1)] is called
    with no timestamp and [onlyOneBlock] at its default, false. *)
Definition resume (now : Z) (this : Blockchain) : list Effect * Blockchain :=
  if negb (isPaused this) then
    ([ConsoleLog "Warning: startMining called when miner was already started"],
     this)
  else
    let this := set_state (Z.lxor (state this) Status.paused) this in
    if instamine this then ([], mine now (-1) None false this)
    else ([], this).

(** [mineAll], the function the constructor hands to the automatic
    mining: nothing while paused. *)
Definition mineAll (now : Z) (maxTransactions : Z) (this : Blockchain)
    : Blockchain :=
  if isPaused this then this else mine now maxTransactions None false this.

(** The pool's [drain] event: the listener [mineAll.bind(null, 1)] is
    registered in instamine mode only. *)
Definition onDrain (now : Z) (this : Blockchain) : Blockchain :=
  if instamine this then mineAll now 1 this else this.

(** One firing of the interval timer, [next = () => mineAll(-1).then(wait)],
    which is started in interval mode only. *)
Definition onInterval (now : Z) (this : Blockchain) : Blockchain :=
  if instamine this then this else mineAll now (-1) this.

(** [queueTransaction].  The pool is outside the controller: [added] is how
    [this.transactions.add] completed, [transaction] the transaction as the
    pool left it, and [finalized] the error carried by the transaction's
    [finalized] event, read only when the method waits for it. *)
Definition queueTransaction (added : Completion bool) (transaction : Transaction)
    (finalized : option JsError) (this : Blockchain)
    : Completion Data * list Effect :=
  match added with
  | Threw e => (Threw e, [])
  | Returned isExecutable =>
    let scheduled :=
      if isExecutable then [NextTickEmitPendingTransaction transaction] else [] in
    let hash := Data_from (tx_hash transaction) in
    if isPaused this || negb (instamine this) then (Returned hash, scheduled)
    else if instamine this
            && Options.legacyInstamine (Options.miner (options this)) then
      match finalized with
      | Some error => (Threw error, scheduled ++ [AwaitFinalized transaction])
      | None => (Returned hash, scheduled ++ [AwaitFinalized transaction])
      end
    else (Returned hash, scheduled)
  end.

(** [stop].  A controller that is still starting is waited for: its
    initialization ends by setting the state to [started].  The
    constructor registered, with [this.once("stop")], a listener that
    clears the miner's listeners; [once] removes it when the event is
    emitted for the first time.  [onceStop] tells whether that listener is
    still registered (it is from the construction until the first [stop]
    event), and the result tells the same for afterwards. *)
Definition stop (onceStop : bool) (this : Blockchain)
    : list Effect * (bool * Blockchain) :=
  let '(waited, this) :=
    if state this =? Status.starting
    then ([AwaitStart], set_state Status.started this)
    else ([], this) in
  let cleanup :=
    waited ++ [VmRemoveAllListeners; PoolClearListeners; EmitStop]
      ++ (if onceStop then [MinerClearListeners] else []) in
  if state this =? Status.started then
    (cleanup ++ [DatabaseClose], (false, set_state Status.stopped this))
  else (cleanup, (false, this)).

(** The blocks that became head when the miner delivered them, one per
    [MinerBlock] call of a run, in order. *)
Fixpoint mined_heads (calls : list Call) (this : Blockchain) : list Block :=
  match calls with
  | [] => []
  | c :: rest =>
    let this' := step this c in
    match c with
    | MinerBlock _ _ _ => latest this' :: mined_heads rest this'
    | _ => mined_heads rest this'
    end
  end.

End Lifecycle.

(** The per-transaction log entries of a block, as [#saveNewBlock] appends
    them: transaction by transaction, each log with the index and the hash
    of its transaction; [i] is the index of the first transaction. *)
Fixpoint blockLogEntries (i : Z) (txs : list Transaction)
    : list (Z * Buffer * Buffer) :=
  match txs with
  | [] => []
  | tx :: rest =>
    map (fun log => (i, tx_hash tx, log)) (tx_logs tx)
      ++ blockLogEntries (i + 1) rest
  end.

(** The blocks announced on [block], in the order of a trace. *)
Fixpoint emitted_blocks (t : list Event) : list Block :=
  match t with
  | [] => []
  | EvEmitBlock b :: rest => b :: emitted_blocks rest
  | _ :: rest => emitted_blocks rest
  end.

(** A transaction with logs, for the examples. *)
Definition exampleTransaction (h : Z) (logs : list Buffer) : Transaction :=
  {| tx_hash := [h]; tx_raw := [[h; h]]; tx_type := 0; tx_from := [9];
     tx_receipt := {| receipt_raw := [[1]; [h]]; contractAddress := None |};
     tx_logs := logs; execException := None |}.

Definition exampleBlockDataWith (t : Z) (txs : list Transaction) : BlockData :=
  {| bd_timestamp := t; bd_transactionsTrie := [2]; bd_receiptTrie := [3];
     bd_gasUsed := 21000 * Z.of_nat (length txs); bd_blockTransactions := txs |}.

(** ** Vocabulary of the store and run properties *)

(** The record [#saveNewBlock] writes for the transaction at index [i]. *)
Definition storedTransaction (blockHash : Buffer) (blockNumber : Quantity)
    (i : Z) (tx : Transaction) : StoredTransaction :=
  {| stored_raw := tx_raw tx;
     stored_blockHash := blockHash;
     stored_blockNumber := blockNumber;
     stored_index := i;
     stored_type := tx_type tx;
     stored_from := tx_from tx |}.

(** The transactions of a list of blocks. *)
Definition transactions_of (bs : list Block) : list Transaction :=
  concat (map transactions bs).

(** The calls that can move the head: the delivery of a block by the miner
    and [revert]. *)
Definition moves_head (c : Call) : bool :=
  match c with
  | MinerBlock _ _ _ | CallRevert _ => true
  | _ => false
  end.

(** * Properties *)

(** ** Miner options *)

Example extraData_32_characters_kept :
  Options.extraData_normalize (JsString_of "0123456789abcdef0123456789abcdef")
  = Returned (JsString_of "0123456789abcdef0123456789abcdef").
Proof. reflexivity. Qed.

Example extraData_33_characters_refused :
  Options.extraData_normalize (JsString_of "0123456789abcdef0123456789abcdef0")
  = Threw (Error "extra exceeds max length. 33 > 32").
Proof. vm_compute. reflexivity. Qed.

(** A string has at least as many bytes as code units. *)
Lemma length_le_byteLength_utf8 (s : JsString) :
  Z.of_nat (length s) <= byteLength_utf8 s.
Proof.
  assert (Hle : (length s <= length s)%nat) by lia.
  revert Hle. generalize (length s) at 2. intros n. revert s.
  induction n as [|n IH]; intros s Hle.
  - destruct s; [cbn; lia | cbn in Hle; lia].
  - destruct s as [|c rest]; [cbn; lia |].
    cbn [length] in Hle.
    assert (Hrest : Z.of_nat (length rest) <= byteLength_utf8 rest)
      by (apply IH; lia).
    cbn [byteLength_utf8 length].
    destruct (c <? 128); [lia |]. destruct (c <? 2048); [lia |].
    destruct rest as [|d rest']; [cbn; lia |].
    cbn [length] in Hle, Hrest |- *.
    destruct (is_high_surrogate c && is_low_surrogate d); [| lia].
    assert (Z.of_nat (length rest') <= byteLength_utf8 rest')
      by (apply IH; lia).
    lia.
Qed.

(** C9, as the code has it: the [normalize] of [miner.extraData] measures
    the value in UTF-16 code units, [rawType.length], not in bytes.  It
    throws an error for every value of more than 32 code units and returns
    every value of at most 32 code units unchanged; so every value of at
    most 32 bytes is returned unchanged, and every value it rejects is
    longer than 32 bytes. *)
Theorem extraData_normalize_spec (rawType : JsString) :
  (32 < Z.of_nat (length rawType) ->
   Options.normalize (Options.def_extraData Options.MinerOptions) rawType
   = Threw (Error ("extra exceeds max length. "
                     +:+ pretty (length rawType) +:+ " > 32")) /\
   32 < byteLength_utf8 rawType) /\
  (Z.of_nat (length rawType) <= 32 ->
   Options.normalize (Options.def_extraData Options.MinerOptions) rawType
   = Returned rawType) /\
  (byteLength_utf8 rawType <= 32 ->
   Options.normalize (Options.def_extraData Options.MinerOptions) rawType
   = Returned rawType).
Proof.
  cbn [Options.normalize Options.def_extraData Options.MinerOptions].
  unfold Options.extraData_normalize.
  pose proof (length_le_byteLength_utf8 rawType) as Hbytes.
  split; [| split]; intros Hlen.
  - split; [| lia]. apply Z.ltb_lt in Hlen. rewrite Hlen. reflexivity.
  - apply Z.ltb_ge in Hlen. rewrite Hlen. reflexivity.
  - assert (Hle : Z.of_nat (length rawType) <= 32) by lia.
    apply Z.ltb_ge in Hle. rewrite Hle. reflexivity.
Qed.

(** C9, the claim as stated fails on the values it says are rejected: the
    string of seventeen [é] (code unit 233, two bytes each in UTF-8) is 34
    bytes long and is returned unchanged. *)
Lemma extraData_34_bytes_accepted :
  byteLength_utf8 (replicate 17 233) = 34 /\
  Options.normalize (Options.def_extraData Options.MinerOptions)
    (replicate 17 233)
  = Returned (replicate 17 233).
Proof. split; reflexivity. Qed.

Lemma MAX_SAFE_INTEGER_value : Options.MAX_SAFE_INTEGER = 2 ^ 53 - 1.
Proof. reflexivity. Qed.

(** The mining discipline of a constructed controller is the one the
    constructor computes from [blockTime]. *)
Lemma constructor_instamine `{Collaborators} opts cb now root nodes :
  instamine (constructor opts cb now root nodes)
  = bool_decide (Options.blockTime (Options.miner opts) <= 0).
Proof.
  unfold constructor, constructor_notices; cbn.
  destruct (Z.eqb_spec (Options.blockTime (Options.miner opts)) 0) as [->|Hne];
    cbn.
  - rewrite bool_decide_true; [reflexivity | lia].
  - destruct (Z.leb_spec (Options.blockTime (Options.miner opts)) 0).
    + rewrite bool_decide_true; [reflexivity | lia].
    + rewrite bool_decide_false; [reflexivity | lia].
Qed.

Lemma constructor_options `{Collaborators} opts cb now root nodes :
  options (constructor opts cb now root nodes) = opts.
Proof. reflexivity. Qed.

(** C8, as the code has it: the defaults of the miner options are
    blockTime 0, gasPrice 2,000,000,000, blockGasLimit 12,000,000,
    defaultTransactionGasLimit 90,000, callGasLimit 2^53 - 1, coinbase the
    zero address and legacyInstamine false.  The constructor refuses no
    configuration: legacy instamining is in effect exactly when
    legacyInstamine is true and blockTime is not positive, and with a
    positive blockTime the controller is still constructed, with the notice
    that the setting has no effect. *)
Theorem miner_defaults_and_legacyInstamine :
  (Options.default_value (Options.def_blockTime Options.MinerOptions) = Some 0 /\
   Options.default_value (Options.def_gasPrice Options.MinerOptions)
   = Some (Quantity_from 2000000000) /\
   Options.default_value (Options.def_blockGasLimit Options.MinerOptions)
   = Some (Quantity_from 12000000) /\
   Options.default_value (Options.def_defaultTransactionGasLimit Options.MinerOptions)
   = Some (Quantity_from 90000) /\
   Options.default_value (Options.def_callGasLimit Options.MinerOptions)
   = Some (Quantity_from (2 ^ 53 - 1)) /\
   Options.default_value (Options.def_coinbase Options.MinerOptions)
   = Some (Options.CoinbaseAddress (replicate 20 0)) /\
   Options.default_value (Options.def_legacyInstamine Options.MinerOptions)
   = Some false) /\
  (forall (C : Collaborators) opts cb now root nodes,
     let this := constructor opts cb now root nodes in
     state this = Status.started /\
     options this = opts /\
     (instamine this && Options.legacyInstamine (Options.miner (options this)) = true
      <-> Options.legacyInstamine (Options.miner opts) = true /\
          Options.blockTime (Options.miner opts) <= 0) /\
     (Options.legacyInstamine (Options.miner opts) = true /\
      0 < Options.blockTime (Options.miner opts) ->
      In (EvConsoleInfo
            "Setting `legacyInstamine` to `true` has no effect when blockTime is non-zero")
         (trace this))).
Proof.
  split; [repeat split |].
  intros C opts cb now root nodes this.
  split; [reflexivity | split; [reflexivity |]].
  split.
  - subst this. rewrite constructor_instamine, constructor_options.
    rewrite andb_true_iff, bool_decide_eq_true. tauto.
  - intros [Hlegacy Hpos]. subst this.
    unfold constructor, constructor_notices; cbn.
    rewrite Hlegacy.
    destruct (Z.eqb_spec (Options.blockTime (Options.miner opts)) 0); [lia |].
    destruct (Z.leb_spec (Options.blockTime (Options.miner opts)) 0); [lia |].
    cbn. right. left. reflexivity.
Qed.

(** C8, the claim as stated fails: a configuration with legacyInstamine
    true and blockTime 2 is taken as it is (the controller is constructed
    and started, in interval mode, with the notice printed and legacy
    instamining without effect), and with legacyInstamine true and
    blockTime -1 the controller instamines in legacy mode. *)
Lemma legacyInstamine_with_blockTime_accepted :
  (let this := exampleChain 2 true false in
   Options.legacyInstamine (Options.miner (options this)) = true /\
   Options.blockTime (Options.miner (options this)) = 2 /\
   state this = Status.started /\
   instamine this = false /\
   trace this =
     [EvConsoleInfo
        "Legacy instamining, where transactions are fully mined before the hash is returned, is deprecated and will be removed in the future.";
      EvConsoleInfo
        "Setting `legacyInstamine` to `true` has no effect when blockTime is non-zero"]) /\
  (let this := exampleChain (-1) true false in
   Options.blockTime (Options.miner (options this)) <> 0 /\
   state this = Status.started /\
   instamine this && Options.legacyInstamine (Options.miner (options this)) = true).
Proof. repeat split. cbn. lia. Qed.

(** ** The clock *)

Lemma set_timeAdjustment_same (this : Blockchain) :
  set_timeAdjustment (timeAdjustment this) this = this.
Proof. destruct this; reflexivity. Qed.

(** C10: a negative number of seconds is treated as 0 by [increaseTime],
    which then leaves the offset (and the whole controller) as it was; both
    [increaseTime] and [setTime] return the offset they have just stored. *)
Theorem increaseTime_negative_and_returns (seconds : Z) (this : Blockchain)
    (Hneg : seconds < 0) :
  increaseTime seconds this = increaseTime 0 this /\
  increaseTime seconds this = (timeAdjustment this, this) /\
  (forall s, fst (increaseTime s this) = timeAdjustment (snd (increaseTime s this))) /\
  (forall timestamp now,
     fst (setTime timestamp now this)
     = timeAdjustment (snd (setTime timestamp now this))).
Proof.
  unfold increaseTime, setTime.
  apply Z.ltb_lt in Hneg. rewrite Hneg. cbn.
  rewrite Z.add_0_r, set_timeAdjustment_same.
  repeat split.
Qed.

Lemma increaseTime_negative_and_returns_witness :
  let this := exampleChain 0 false false in
  increaseTime (-5) this = increaseTime 0 this /\
  increaseTime (-5) this = (timeAdjustment this, this) /\
  (forall s, fst (increaseTime s this) = timeAdjustment (snd (increaseTime s this))) /\
  (forall timestamp now,
     fst (setTime timestamp now this)
     = timeAdjustment (snd (setTime timestamp now this))).
Proof.
  exact (increaseTime_negative_and_returns (-5) (exampleChain 0 false false)
           ltac:(lia)).
Defined.

(** The offset after [increaseTime]: the argument is added as it is. *)
Lemma increaseTime_offset (seconds : Z) (this : Blockchain) :
  0 <= seconds ->
  timeAdjustment (snd (increaseTime seconds this)) = timeAdjustment this + seconds.
Proof.
  intros Hs. unfold increaseTime.
  destruct (Z.ltb_spec seconds 0); [lia | reflexivity].
Qed.

(** The timestamp of the next block, when none is supplied, is the clock:
    wall-clock milliseconds plus the offset, in whole seconds. *)
Lemma readyNextBlock_timestamp `{Collaborators} this now previous :
  timestamp (header (readyNextBlock this now previous None))
  = (now + timeAdjustment this) `div` 1000.
Proof. reflexivity. Qed.

Lemma increaseTime_next_timestamp `{Collaborators} this now previous seconds :
  0 <= seconds ->
  timestamp (header (readyNextBlock (snd (increaseTime seconds this)) now
                       previous None))
  = (now + timeAdjustment this + seconds) `div` 1000.
Proof.
  intros Hs. rewrite readyNextBlock_timestamp, increaseTime_offset by done.
  f_equal. lia.
Qed.

(** After [setTime t], taken at the same instant, the next block's
    timestamp is [t] in whole seconds. *)
Lemma setTime_next_timestamp `{Collaborators} this now previous t :
  timestamp (header (readyNextBlock (snd (setTime t now this)) now previous None))
  = t `div` 1000.
Proof.
  rewrite readyNextBlock_timestamp. cbn. f_equal. lia.
Qed.

(** An hour asked of [increaseTime], with the clock at 0: the next block is
    stamped 3 seconds later, not 3600. *)
Example increaseTime_3600_next_timestamp :
  let this := exampleChain 0 false false in
  timestamp (header (@readyNextBlock exampleCollaborators this 0 (latest this) None))
  = 0 /\
  timestamp (header (@readyNextBlock exampleCollaborators
                       (snd (increaseTime 3600 this)) 0 (latest this) None))
  = 3.
Proof. split; reflexivity. Qed.

(** C7, what the code does at [increaseTime(1)]: the offset is kept in
    milliseconds and the argument is added unscaled, so when the adjusted
    clock stands at a whole second [q] the next block's timestamp is still
    [q], not [q + 1]. *)
Theorem increaseTime_one_keeps_next_timestamp :
  forall (C : Collaborators) (this : Blockchain) (previous : Block) (q : Z),
    let now := 1000 * q - timeAdjustment this in
    timestamp (header (readyNextBlock this now previous None)) = q /\
    timestamp (header (readyNextBlock (snd (increaseTime 1 this)) now
                         previous None)) = q.
Proof.
  intros C this previous q now. subst now.
  rewrite increaseTime_next_timestamp by lia.
  rewrite readyNextBlock_timestamp.
  split.
  - replace (1000 * q - timeAdjustment this + timeAdjustment this) with (q * 1000)
      by lia.
    apply Z.div_mul. lia.
  - replace (1000 * q - timeAdjustment this + timeAdjustment this + 1)
      with (1 + q * 1000) by lia.
    rewrite Z.div_add by lia. reflexivity.
Qed.

(** ** Filling a new block *)

Lemma header_number_from (n : Z) :
  bigint_or (Quantity_toBigInt (Quantity_from n)) 0 = n.
Proof.
  unfold bigint_or, Quantity_toBigInt, Quantity_from.
  destruct (Z.eqb_spec n 0); congruence.
Qed.

Lemma handleNewBlockData_latest `{Collaborators} this blockData :
  latest (fst (handleNewBlockData this blockData)) = fillNewBlock this blockData.
Proof.
  unfold handleNewBlockData, saveNewBlock.
  destruct (saveTransactions _ _ _ _ _ _) as [[db blockLogs] log].
  unfold emitNewBlock, emit_block.
  set (ls := block_listeners _).
  assert (Hfold : forall ls s, latest (fold_left
      (fun this0 (_ : nat) => snapshot_listener (fillNewBlock this blockData) this0)
      ls s) = latest s).
  { clear. intros ls. induction ls as [|l ls IH]; intros s; [reflexivity |].
    cbn [fold_left]. rewrite IH. reflexivity. }
  destruct (instamine _ && _); cbn [fst]; subst ls; rewrite Hfold; reflexivity.
Qed.

Lemma minerBlock_number `{Collaborators} root nodes blockData this :
  block_number (latest (minerBlock root nodes blockData this))
  = block_number (latest this) + 1.
Proof.
  unfold minerBlock. rewrite handleNewBlockData_latest.
  unfold block_number, header_number. cbn.
  apply header_number_from.
Qed.

Lemma run_app `{Collaborators} calls1 calls2 this :
  run (calls1 ++ calls2) this = run calls2 (run calls1 this).
Proof. unfold run. apply fold_left_app. Qed.

(** From the genesis block, numbered 0, a chain of [n] mined blocks has
    its head at number [n]. *)
Lemma mined_chain_head_number `{Collaborators}
    (opts : Options.EthereumInternalOptions) (cb : Options.Address) (now : Z)
    (root : Buffer) (nodes : gmap (list Z) (list Z))
    (mined : list (Buffer * gmap (list Z) (list Z) * BlockData)) :
  block_number
    (latest (run (map (fun m => MinerBlock m.1.1 m.1.2 m.2) mined)
               (constructor opts cb now root nodes)))
  = Z.of_nat (length mined).
Proof.
  induction mined as [|m mined IH] using rev_ind; [reflexivity |].
  rewrite map_app, run_app. cbn [map run fold_left step].
  rewrite minerBlock_number, IH, length_app. cbn. lia.
Qed.

(** C4, as the code has it: the header [#fillNewBlock] gives a mined block
    has the number of the previous head plus 1 (so that a chain mined from
    the genesis block, number 0, is numbered without gaps), the hash of the
    previous head as parent hash, the current trie root as state root, the
    miner's transactions-trie and receipt-trie roots, timestamp and gas
    used, the configured block gas limit and the controller's coinbase.
    The extra data is not taken from the configuration: it is the one a
    fresh header has. *)
Theorem fillNewBlock_header :
  forall (C : Collaborators) (this : Blockchain) (blockData : BlockData),
    let block := fillNewBlock this blockData in
    let h := header block in
    number h = Quantity_from (header_number (header (latest this)) + 1) /\
    header_number h = header_number (header (latest this)) + 1 /\
    parentHash h = header_hash (header (latest this)) /\
    stateRoot h = trie_root this /\
    transactionsTrie h = bd_transactionsTrie blockData /\
    receiptTrie h = bd_receiptTrie blockData /\
    timestamp h = bd_timestamp blockData /\
    gasUsed h = Quantity_from (bd_gasUsed blockData) /\
    gasLimit h = Options.blockGasLimit (Options.miner (options this)) /\
    coinbase h = coinbaseAddress this /\
    extraData h = extraData emptyHeader /\
    transactions block = bd_blockTransactions blockData /\
    latest (fst (handleNewBlockData this blockData)) = block /\
    (forall (opts : Options.EthereumInternalOptions) (cb : Options.Address)
            (now : Z) (root : Buffer) (nodes : gmap (list Z) (list Z))
            (mined : list (Buffer * gmap (list Z) (list Z) * BlockData)),
       block_number
         (latest (run (map (fun m => MinerBlock m.1.1 m.1.2 m.2) mined)
                    (constructor opts cb now root nodes)))
       = Z.of_nat (length mined)).
Proof.
  intros C this blockData block h.
  repeat match goal with |- _ /\ _ => split end; try reflexivity.
  - subst h block. unfold header_number at 1. cbn. apply header_number_from.
  - apply handleNewBlockData_latest.
  - intros. apply mined_chain_head_number.
Qed.

(** The block [#fillNewBlock] builds does not depend on the configured
    extra data. *)
Lemma fillNewBlock_ignores_extraData `{Collaborators} this1 this2 blockData :
  latest this1 = latest this2 ->
  trie_root this1 = trie_root this2 ->
  coinbaseAddress this1 = coinbaseAddress this2 ->
  Options.blockGasLimit (Options.miner (options this1))
  = Options.blockGasLimit (Options.miner (options this2)) ->
  fillNewBlock this1 blockData = fillNewBlock this2 blockData.
Proof.
  intros Hl Ht Hc Hg. unfold fillNewBlock. rewrite Hl, Ht, Hc, Hg. reflexivity.
Qed.

(** C4, the claim as stated fails on the extra data: whatever the
    collaborators are, and however a configured string is turned into
    bytes (provided two different strings can give different bytes), the
    extra data of the filled header is not always the configured one. *)
Lemma fillNewBlock_extraData_not_configured :
  ~ exists (C : Collaborators) (toBuffer : option JsString -> Buffer),
      toBuffer (Some (JsString_of "a")) <> toBuffer (Some (JsString_of "b")) /\
      forall (this : Blockchain) (blockData : BlockData),
        extraData (header (fillNewBlock this blockData))
        = toBuffer (Options.extraData (Options.miner (options this))).
Proof.
  intros (C & toBuffer & Hdiff & Hclaim).
  pose (mk := fun extra =>
    @constructor C (exampleOptions 0 false false extra) Options.ACCOUNT_ZERO 0 [1] ∅).
  pose proof (Hclaim (mk (Some "a"%string)) (exampleBlockData 1)) as Ha.
  pose proof (Hclaim (mk (Some "b"%string)) (exampleBlockData 1)) as Hb.
  apply Hdiff. cbn in Ha, Hb. unfold JsString_of. cbn. congruence.
Qed.

(** ** Emission order *)

Lemma trace_emitted e this : trace (emitted e this) = trace this ++ e.
Proof. reflexivity. Qed.

Lemma trace_listeners `{Collaborators} block ls this :
  trace (fold_left (fun this0 (_ : nat) => snapshot_listener block this0) ls this)
  = trace this.
Proof.
  revert this. induction ls as [|l ls IH]; intros this; [reflexivity |].
  cbn [fold_left]. rewrite IH. reflexivity.
Qed.

Lemma trace_emit_block `{Collaborators} block this :
  trace (emit_block block this) = trace this ++ [EvEmitBlock block].
Proof. unfold emit_block. rewrite trace_listeners. reflexivity. Qed.

Lemma saveTransactions_log `{Collaborators} blockHash blockNumber ts txs :
  forall i db bl log,
    forallb (fun e => negb (is_emission e)) log = true ->
    forallb (fun e => negb (is_emission e))
      (saveTransactions blockHash blockNumber ts i txs (db, bl, log)).2 = true.
Proof.
  induction txs as [|tx txs IH]; intros i db bl log Hlog; [exact Hlog |].
  cbn [saveTransactions]. apply IH.
  rewrite forallb_app, Hlog. reflexivity.
Qed.

Lemma saveTransactions_blockHash `{Collaborators} blockHash blockNumber ts txs :
  forall i db bl log,
    bl_blockHash
      (saveTransactions blockHash blockNumber ts i txs (db, bl, log)).1.2
    = bl_blockHash bl.
Proof.
  induction txs as [|tx txs IH]; intros i db bl log; [reflexivity |].
  cbn [saveTransactions]. rewrite IH.
  generalize (tx_logs tx). intros logs. revert bl.
  induction logs as [|l logs IHl]; intros bl; [reflexivity |].
  cbn [fold_left]. rewrite IHl. reflexivity.
Qed.

(** What one pass of the save pipeline adds to the trace: events that are
    no emissions, then [blockLogs] and [block], in this order and for the
    same block; in legacy instamine mode the next tick comes right before
    the two. *)
Lemma handleNewBlockData_trace `{Collaborators} this blockData :
  let r := handleNewBlockData this blockData in
  exists before,
    trace (fst r)
    = trace this ++ before ++ [EvEmitBlockLogs (snd r).2; EvEmitBlock (snd r).1] /\
    forallb (fun e => negb (is_emission e)) before = true /\
    bl_blockHash (snd r).2 = Block_hash (snd r).1 /\
    (snd r).1 = fillNewBlock this blockData /\
    (instamine this && Options.legacyInstamine (Options.miner (options this)) = true ->
     last before = Some EvNextTick).
Proof.
  unfold handleNewBlockData, saveNewBlock.
  pose proof (saveTransactions_log (Block_hash (fillNewBlock this blockData))
    (number (header (fillNewBlock this blockData)))
    (timestamp (header (fillNewBlock this blockData)) * 1000)
    (transactions (fillNewBlock this blockData)) 0
    (database (set_latest (fillNewBlock this blockData) this))
    (BlockLogs_create (Block_hash (fillNewBlock this blockData))) [] eq_refl) as Hlog.
  pose proof (saveTransactions_blockHash (Block_hash (fillNewBlock this blockData))
    (number (header (fillNewBlock this blockData)))
    (timestamp (header (fillNewBlock this blockData)) * 1000)
    (transactions (fillNewBlock this blockData)) 0
    (database (set_latest (fillNewBlock this blockData) this))
    (BlockLogs_create (Block_hash (fillNewBlock this blockData))) []) as Hhash.
  destruct (saveTransactions _ _ _ _ _ _) as [[db blockLogs] log].
  cbn [fst snd] in Hlog, Hhash.
  unfold emitNewBlock.
  set (fin := map _ (transactions (fillNewBlock this blockData))).
  assert (Hfin : forallb (fun e => negb (is_emission e)) fin = true).
  { subst fin. generalize (transactions (fillNewBlock this blockData)).
    intros txs. induction txs as [|tx txs IH]; [reflexivity | exact IH]. }
  cbn [instamine options emitted set_trace set_database set_latest].
  destruct (instamine this && _) eqn:Hlegacy; cbn [fst snd].
  - exists (log ++ fin ++ [EvNextTick]).
    rewrite trace_emit_block. unfold emit_blockLogs. rewrite !trace_emitted.
    cbn [trace]. rewrite <- !app_assoc. cbn [app].
    split; [reflexivity |].
    rewrite !forallb_app, Hlog, Hfin.
    split; [reflexivity |]. split; [exact Hhash |]. split; [reflexivity |].
    intros _. rewrite !last_app. reflexivity.
  - exists (log ++ fin).
    rewrite trace_emit_block. unfold emit_blockLogs. rewrite !trace_emitted.
    cbn [trace]. rewrite <- !app_assoc. cbn [app].
    split; [reflexivity |].
    rewrite !forallb_app, Hlog, Hfin.
    split; [reflexivity |]. split; [exact Hhash |]. split; [reflexivity |].
    intros Hf. discriminate Hf.
Qed.

Lemma quiet_lookup (t : list Event) (j : nat) (e : Event) :
  quiet t = true -> t !! j = Some e -> is_emission e = false.
Proof.
  intros Hq Hj. rewrite forallb_forall in Hq.
  apply negb_true_iff, Hq, list_elem_of_In.
  eapply list_elem_of_lookup_2, Hj.
Qed.

Lemma emissions_ordered_nil `{Collaborators} : emissions_ordered [].
Proof. intros j b Hj. rewrite lookup_nil in Hj. discriminate. Qed.

Lemma emissions_ordered_quiet `{Collaborators} (t more : list Event) :
  emissions_ordered t -> quiet more = true -> emissions_ordered (t ++ more).
Proof.
  intros Ht Hq j b Hj.
  destruct (decide (j < length t)%nat) as [Hlt | Hge].
  - rewrite lookup_app_l in Hj by done.
    destruct (Ht j b Hj) as (i & bl & <- & Hi & Hh).
    exists i, bl. rewrite lookup_app_l by lia. done.
  - rewrite lookup_app_r in Hj by lia.
    pose proof (quiet_lookup _ _ _ Hq Hj) as Hem. discriminate Hem.
Qed.

Lemma emissions_ordered_pair `{Collaborators} (t : list Event) bl b :
  emissions_ordered t -> bl_blockHash bl = Block_hash b ->
  emissions_ordered (t ++ [EvEmitBlockLogs bl; EvEmitBlock b]).
Proof.
  intros Ht Hh j b' Hj.
  destruct (decide (j < length t)%nat) as [Hlt | Hge].
  - rewrite lookup_app_l in Hj by done.
    destruct (Ht j b' Hj) as (i & bl' & <- & Hi & Hh').
    exists i, bl'. rewrite lookup_app_l by lia. done.
  - rewrite lookup_app_r in Hj by lia.
    destruct (j - length t)%nat as [|[|k]] eqn:Hk; cbn in Hj; try discriminate.
    injection Hj as <-.
    exists (length t), bl. split; [lia |].
    rewrite lookup_app_r by lia. rewrite Nat.sub_diag. done.
Qed.

Lemma trace_snapshot `{Collaborators} this :
  trace (snd (snapshot this))
  = trace this ++ [EvLog (LogSavedSnapshot (fst (snapshot this)))].
Proof. unfold snapshot. cbn. case_match; reflexivity. Qed.

Lemma trace_revert `{Collaborators} snapshotId this :
  trace (snd (revert snapshotId this))
  = trace this ++
    match snapshotId with
    | Some rawValue => [EvLog (LogRevertingToSnapshot rawValue)]
    | None => []
    end.
Proof.
  unfold revert. destruct snapshotId as [rawValue|]; [| cbn; by rewrite app_nil_r].
  repeat case_match; simplify_eq; reflexivity.
Qed.

Lemma trace_simulateTransaction `{Collaborators} transaction parentBlock this :
  exists more,
    trace (snd (simulateTransaction transaction parentBlock this))
    = trace this ++ more /\ quiet more = true.
Proof.
  unfold simulateTransaction, simulationResult.
  destruct (0 <=? _).
  - destruct (runCall _ _) as [result store].
    eexists [EvRunCall _ _]. repeat case_match; split; reflexivity.
  - exists []. rewrite app_nil_r. cbn. case_match; split; reflexivity.
Qed.

(** Every call but the miner's delivery of a block adds no emission. *)
Lemma step_quiet `{Collaborators} this c :
  (forall root nodes blockData, c <> MinerBlock root nodes blockData) ->
  exists more, trace (step this c) = trace this ++ more /\ quiet more = true.
Proof.
  intros Hc. destruct c; cbn [step].
  - rewrite trace_snapshot. eauto.
  - rewrite trace_revert. destruct snapshotId; eauto.
  - exists []. rewrite app_nil_r. done.
  - exists []. rewrite app_nil_r. done.
  - apply trace_simulateTransaction.
  - unfold mine. rewrite trace_emitted. eauto.
  - exfalso. eapply Hc. reflexivity.
  - exists []. rewrite app_nil_r. done.
Qed.

Lemma step_emissions_ordered `{Collaborators} this c :
  emissions_ordered (trace this) -> emissions_ordered (trace (step this c)).
Proof.
  intros Ht.
  assert (Hcase : (exists root nodes blockData, c = MinerBlock root nodes blockData)
                  \/ ~ (exists root nodes blockData, c = MinerBlock root nodes blockData)).
  { destruct c; try (right; intros (? & ? & ? & [=]); fail). left. eauto. }
  destruct Hcase as [(root & nodes & blockData & ->) | Hc].
  - cbn [step]. unfold minerBlock.
    destruct (handleNewBlockData_trace
      (set_database
         (set_db_trie (nodes ∪ db_trie (database this)) (database this))
         (set_trie_root root this)) blockData)
      as (before & -> & Hq & Hh & _).
    cbn [trace set_database set_trie_root]. rewrite app_assoc.
    apply emissions_ordered_pair; [| exact Hh].
    apply emissions_ordered_quiet; done.
  - destruct (step_quiet this c) as (more & -> & Hq).
    + intros root nodes blockData ->. apply Hc. eauto.
    + apply emissions_ordered_quiet; done.
Qed.

Lemma run_emissions_ordered `{Collaborators} calls this :
  emissions_ordered (trace this) -> emissions_ordered (trace (run calls this)).
Proof.
  revert this. induction calls as [|c calls IH]; intros this Ht; [exact Ht |].
  cbn [run fold_left]. apply IH, step_emissions_ordered, Ht.
Qed.

Lemma constructor_trace_quiet `{Collaborators}
    (opts : Options.EthereumInternalOptions) (cb : Options.Address) (now : Z)
    (root : Buffer) (nodes : gmap (list Z) (list Z)) :
  quiet (trace (constructor opts cb now root nodes)) = true.
Proof.
  unfold constructor, constructor_notices. cbn.
  repeat case_match; reflexivity.
Qed.

(** C3: every block that goes through the save pipeline has its
    [blockLogs] event emitted and then, right after it, its [block] event;
    in legacy instamine mode both come after the next tick.  Hence in every
    run of the controller each [block] emission is immediately preceded by
    the [blockLogs] emission of the same block. *)
Theorem blockLogs_emitted_before_block :
  forall (C : Collaborators),
    (forall (this : Blockchain) (blockData : BlockData),
       let r := handleNewBlockData this blockData in
       exists before,
         trace (fst r)
         = trace this ++ before
             ++ [EvEmitBlockLogs (snd r).2; EvEmitBlock (snd r).1] /\
         forallb (fun e => negb (is_emission e)) before = true /\
         bl_blockHash (snd r).2 = Block_hash (snd r).1 /\
         (snd r).1 = fillNewBlock this blockData /\
         (instamine this
          && Options.legacyInstamine (Options.miner (options this)) = true ->
          last before = Some EvNextTick)) /\
    (forall (calls : list Call) (opts : Options.EthereumInternalOptions)
            (cb : Options.Address) (now : Z) (root : Buffer)
            (nodes : gmap (list Z) (list Z)),
       emissions_ordered (trace (run calls (constructor opts cb now root nodes)))).
Proof.
  intros C. split.
  - intros this blockData. apply handleNewBlockData_trace.
  - intros calls opts cb now root nodes.
    apply run_emissions_ordered.
    rewrite <- (app_nil_l (trace _)).
    apply emissions_ordered_quiet; [apply emissions_ordered_nil |].
    apply constructor_trace_quiet.
Qed.

(** ** Call simulation *)

Example simulate_out_of_gas_returns_empty :
  let this := exampleChain 0 false false in
  @simulateTransaction exampleCollaborators (exampleCall 20999 None (latest this))
    (latest this) this
  = (Returned [], this).
Proof. reflexivity. Qed.

Example simulate_out_of_gas_throws :
  let this := exampleChain 0 false true in
  @simulateTransaction exampleCollaborators (exampleCall 20999 None (latest this))
    (latest this) this
  = (Threw (RuntimeError [] outOfGasResult RETURN_VALUE), this).
Proof. reflexivity. Qed.

Example simulate_revert_returns_data :
  let this := exampleChain 0 false false in
  fst (@simulateTransaction exampleCollaborators
         (exampleCall 30000 (Some [7]) (latest this)) (latest this) this)
  = Returned [8; 195].
Proof. reflexivity. Qed.

Example simulate_success_returns_data :
  let this := exampleChain 0 false true in
  fst (@simulateTransaction exampleCollaborators
         (exampleCall 21000 None (latest this)) (latest this) this)
  = Returned [42].
Proof. reflexivity. Qed.

Lemma simulationResult_options `{Collaborators} transaction parentBlock this :
  options (snd (simulationResult transaction parentBlock this)) = options this.
Proof.
  unfold simulationResult. destruct (0 <=? _); [| reflexivity].
  destruct (runCall _ _). reflexivity.
Qed.

(** C6: when the intrinsic gas exceeds the supplied gas the VM is not run
    (the controller, its trace included, is left as it was) and the
    execution result is the one whose only exception is OutOfGas.  When the
    supplied gas covers the intrinsic gas the VM is run once and the
    execution result is the one its [runCall] returned: if that result
    carries an exception, [simulateTransaction] throws a RuntimeError made
    of that very result if and only if [vmErrorsOnRPCResponse] is set, and
    otherwise returns that result's return value, the revert data (the
    empty data when there is none); if it carries no exception the return
    value is returned. *)
Theorem simulateTransaction_exceptions :
  forall (C : Collaborators) (transaction : SimulationTransaction)
         (parentBlock : Block) (this : Blockchain),
    let vmErrors := Options.vmErrorsOnRPCResponse (Options.chain (options this)) in
    let intrinsic :=
      calculateIntrinsicGas (sim_data transaction)
        (Options.hardfork (Options.chain (options this))) in
    let vm :=
      createVmFromStateTrie this (db_trie (database this))
        (stateRoot (header parentBlock)) (allowUnlimitedContractSize_vm this) in
    let callOpts := {|
      rc_caller := sim_from transaction;
      rc_data := sim_data transaction;
      rc_gasPrice := sim_gasPrice transaction;
      rc_gasLimit := Quantity_from (sim_gas transaction - intrinsic);
      rc_to := sim_to transaction;
      rc_value := sim_value transaction;
      rc_block := sim_block transaction |} in
    let execution := fst (runCall vm callOpts) in
    let r := simulateTransaction transaction parentBlock this in
    (sim_gas transaction < intrinsic ->
     simulationResult transaction parentBlock this = (outOfGasResult, this) /\
     exceptionError (execResult outOfGasResult) = Some (mkVmError OUT_OF_GAS) /\
     snd r = this /\
     fst r = if vmErrors then Threw (RuntimeError [] outOfGasResult RETURN_VALUE)
             else Returned []) /\
    (intrinsic <= sim_gas transaction ->
     trace (snd r) = trace this ++ [EvRunCall vm callOpts] /\
     fst (simulationResult transaction parentBlock this) = execution /\
     (forall e,
        exceptionError (execResult execution) = Some e ->
        (threw (fst r) <-> vmErrors = true) /\
        (vmErrors = true ->
         fst r = Threw (RuntimeError [] execution RETURN_VALUE)) /\
        (vmErrors = false ->
         fst r = Returned (object_or (returnValue (execResult execution)) []))) /\
     (exceptionError (execResult execution) = None ->
      fst r = Returned (object_or (returnValue (execResult execution)) []))) /\
    (forall result this' e,
       simulationResult transaction parentBlock this = (result, this') ->
       exceptionError (execResult result) = Some e ->
       (threw (fst r) <-> vmErrors = true) /\
       (vmErrors = true ->
        r = (Threw (RuntimeError [] result RETURN_VALUE), this')) /\
       (vmErrors = false ->
        r = (Returned (object_or (returnValue (execResult result)) []), this'))).
Proof.
  intros C transaction parentBlock this vmErrors intrinsic vm callOpts execution r.
  split; [| split].
  - intros Hgas.
    assert (Hres : simulationResult transaction parentBlock this
                   = (outOfGasResult, this)).
    { unfold simulationResult. fold intrinsic.
      destruct (Z.leb_spec 0 (sim_gas transaction - intrinsic));
        [lia | reflexivity]. }
    split; [exact Hres |]. split; [reflexivity |].
    subst r. unfold simulateTransaction. rewrite Hres. cbn. fold vmErrors.
    destruct vmErrors; split; reflexivity.
  - intros Hgas.
    assert (Hres : simulationResult transaction parentBlock this
                   = (execution,
                      set_database
                        (set_db_trie (snd (runCall vm callOpts)) (database this))
                        (emitted [EvRunCall vm callOpts] this))).
    { unfold simulationResult. fold intrinsic.
      destruct (Z.leb_spec 0 (sim_gas transaction - intrinsic)); [| lia].
      fold vm. fold callOpts. subst execution.
      destruct (runCall vm callOpts) as [result store]. reflexivity. }
    subst r. unfold simulateTransaction. rewrite Hres.
    cbn [options set_database emitted set_trace fst snd]. fold vmErrors.
    split; [| split; [reflexivity | split]].
    + destruct (exceptionError (execResult execution)); [destruct vmErrors |];
        reflexivity.
    + intros e He. rewrite He. destruct vmErrors; cbn; repeat split; done.
    + intros He. rewrite He. reflexivity.
  - intros result this' e Hres He.
    pose proof (simulationResult_options transaction parentBlock this) as Hopts.
    subst r. unfold simulateTransaction. rewrite Hres in *. cbn [snd] in Hopts.
    rewrite He, Hopts. fold vmErrors.
    destruct vmErrors; cbn; repeat split; try done.
Qed.

Lemma emitted_blocks_app (t1 t2 : list Event) :
  emitted_blocks (t1 ++ t2) = emitted_blocks t1 ++ emitted_blocks t2.
Proof.
  induction t1 as [|e t1 IH]; [reflexivity |].
  cbn [app emitted_blocks]. destruct e; rewrite IH; reflexivity.
Qed.

Lemma set_db_trie_same (db : Database) : set_db_trie (db_trie db) db = db.
Proof. destruct db; reflexivity. Qed.

(** Whatever the VM does, a simulation either leaves the controller as it
    was or runs one call on a VM made over a new trie, rooted at the parent
    block's state root, and changes nothing but the trace and the node
    store that trie shares with the database. *)
Lemma simulateTransaction_frame `{Collaborators} transaction parentBlock this :
  let this' := snd (simulateTransaction transaction parentBlock this) in
  this' = this \/
  exists vm callOpts,
    vm = createVmFromStateTrie this (db_trie (database this))
           (stateRoot (header parentBlock)) (allowUnlimitedContractSize_vm this) /\
    this' = set_database
              (set_db_trie (snd (runCall vm callOpts)) (database this))
              (emitted [EvRunCall vm callOpts] this).
Proof.
  unfold simulateTransaction, simulationResult.
  destruct (0 <=? _).
  - right.
    match goal with
    | |- context [runCall ?vm ?callOpts] => exists vm, callOpts
    end.
    split; [reflexivity |].
    destruct (runCall _ _) as [result store]. cbn [snd].
    repeat case_match; reflexivity.
  - left. cbn. case_match; reflexivity.
Qed.

(** C5, as the code has it: for every transaction, parent block and VM,
    [simulateTransaction] leaves the head block, the earliest block, the
    root and the caches of the head trie, the pool, the snapshots, the
    clock offset and the stores of blocks, transactions, receipts and
    block logs as they were, and announces no block.  Below the intrinsic
    gas it leaves the whole controller as it was.  Otherwise it runs the
    VM once, over a new trie rooted at the parent block's state root; that
    trie is built on the node store of the database itself, and the node
    store afterwards is the one the VM's call left.  So the database is
    unchanged exactly when the VM is not run or its call leaves the node
    store as it was given. *)
Theorem simulateTransaction_isolated :
  forall (C : Collaborators) (transaction : SimulationTransaction)
         (parentBlock : Block) (this : Blockchain),
    let intrinsic :=
      calculateIntrinsicGas (sim_data transaction)
        (Options.hardfork (Options.chain (options this))) in
    let vm :=
      createVmFromStateTrie this (db_trie (database this))
        (stateRoot (header parentBlock)) (allowUnlimitedContractSize_vm this) in
    let callOpts := {|
      rc_caller := sim_from transaction;
      rc_data := sim_data transaction;
      rc_gasPrice := sim_gasPrice transaction;
      rc_gasLimit := Quantity_from (sim_gas transaction - intrinsic);
      rc_to := sim_to transaction;
      rc_value := sim_value transaction;
      rc_block := sim_block transaction |} in
    let this' := snd (simulateTransaction transaction parentBlock this) in
    latest this' = latest this /\
    earliest this' = earliest this /\
    trie_root this' = trie_root this /\
    sm_cache this' = sm_cache this /\
    sm_storageTries this' = sm_storageTries this /\
    pool this' = pool this /\
    snapshots this' = snapshots this /\
    timeAdjustment this' = timeAdjustment this /\
    db_blocks (database this') = db_blocks (database this) /\
    db_transactions (database this') = db_transactions (database this) /\
    db_transactionReceipts (database this')
    = db_transactionReceipts (database this) /\
    db_blockLogs (database this') = db_blockLogs (database this) /\
    emitted_blocks (trace this') = emitted_blocks (trace this) /\
    (sim_gas transaction < intrinsic -> this' = this) /\
    (intrinsic <= sim_gas transaction ->
     vm_trie_root vm = stateRoot (header parentBlock) /\
     vm_trie_db vm = db_trie (database this) /\
     trace this' = trace this ++ [EvRunCall vm callOpts] /\
     db_trie (database this') = snd (runCall vm callOpts)) /\
    (database this' = database this <->
     sim_gas transaction < intrinsic \/
     snd (runCall vm callOpts) = db_trie (database this)).
Proof.
  intros C transaction parentBlock this intrinsic vm callOpts this'.
  assert (Hcases :
    (sim_gas transaction < intrinsic /\ this' = this) \/
    (intrinsic <= sim_gas transaction /\
     this' = set_database
               (set_db_trie (snd (runCall vm callOpts)) (database this))
               (emitted [EvRunCall vm callOpts] this))).
  { subst this'. unfold simulateTransaction, simulationResult. fold intrinsic.
    destruct (Z.leb_spec 0 (sim_gas transaction - intrinsic)).
    - right. split; [lia |]. fold vm. fold callOpts.
      destruct (runCall vm callOpts) as [result store]. cbn [snd].
      repeat case_match; reflexivity.
    - left. split; [lia |]. cbn. case_match; reflexivity. }
  destruct Hcases as [[Hgas ->] | [Hgas ->]].
  - split_and!; try reflexivity; try lia.
    split; [intros _; left; exact Hgas | reflexivity].
  - cbn. split_and!; try reflexivity; try lia.
    + rewrite emitted_blocks_app. cbn. apply app_nil_r.
    + intros _. split_and!; reflexivity.
    + split.
      * intros Hdb. right. apply (f_equal db_trie) in Hdb. exact Hdb.
      * intros [Hlt | Hstore]; [lia |]. rewrite Hstore. apply set_db_trie_same.
Qed.

(** C5, the claim as stated fails on the database: the new trie shares the
    database's node store, so with a VM whose call commits a node the
    database is not what it was. *)
Lemma simulateTransaction_writes_node_store :
  let this := exampleChain 0 false false in
  let transaction := exampleCall 30000 (Some [7]) (latest this) in
  database
    (snd (@simulateTransaction committingCollaborators transaction
            (latest this) this))
  <> database this.
Proof.
  cbv zeta. intros Heq.
  apply (f_equal (fun db => db_trie db !! [0])) in Heq.
  vm_compute in Heq. discriminate.
Qed.


(** ** Snapshots and revert *)

Section SnapshotInvariants.
Context `{Collaborators}.

Lemma walkBlocks_split (snapshotHash : Buffer) (bs : list Block) :
  exists pre post,
    bs = pre ++ post /\
    walkBlocks snapshotHash (map Block_hash bs)
    = (map Block_hash pre, map Block_hash post) /\
    match post with
    | [] => True
    | b :: _ => Block_hash b = snapshotHash
    end.
Proof.
  induction bs as [|b bs (pre & post & Hbs & Hwalk & Hpost)].
  - exists [], []. done.
  - cbn [map walkBlocks]. case_bool_decide as Hb.
    + exists [], (b :: bs). done.
    + exists (b :: pre), post. rewrite Hwalk, Hbs. done.
Qed.

Lemma getAllByHash_stored (db : Database) (bs : list Block) :
  Forall (fun b => db_blocks db !! inr (Block_hash b) = Some b) bs ->
  getAllByHash (map Block_hash bs) db = Returned bs.
Proof.
  induction 1 as [|b bs Hb _ IH]; [reflexivity |].
  cbn [map getAllByHash]. unfold getByHash. rewrite Hb, IH. reflexivity.
Qed.

Lemma deleteTransactions_blocks (txs : list Transaction) (db : Database) :
  db_blocks (fold_left deleteTransaction txs db) = db_blocks db.
Proof.
  revert db. induction txs as [|tx txs IH]; intros db; [reflexivity |].
  cbn [fold_left]. rewrite IH. reflexivity.
Qed.

Lemma deleteBlocks_lookup_hash (bs : list Block) (db : Database) (h : Buffer) :
  Forall (fun b => Block_hash b <> h) bs ->
  db_blocks (fold_left deleteBlock bs db) !! inr h = db_blocks db !! inr h.
Proof.
  intros Hbs. revert db.
  induction Hbs as [|b bs Hb _ IH]; intros db; [reflexivity |].
  cbn [fold_left]. rewrite IH. unfold deleteBlock. cbn [db_blocks].
  rewrite deleteTransactions_blocks.
  rewrite lookup_delete_ne by (intros [=]; done).
  rewrite lookup_delete_ne by (intros [=]). reflexivity.
Qed.

Lemma saveTransactions_blocks blockHash blockNumber ts txs :
  forall i db bl log,
    db_blocks (saveTransactions blockHash blockNumber ts i txs (db, bl, log)).1.1
    = db_blocks db.
Proof.
  induction txs as [|tx txs IH]; intros i db bl log; [reflexivity |].
  cbn [saveTransactions]. rewrite IH. reflexivity.
Qed.

Lemma listeners_snapshots block ls this :
  let this' :=
    fold_left (fun this0 (_ : nat) => snapshot_listener block this0) ls this in
  snaps (snapshots this') = snaps (snapshots this) /\
  unsubscribeFromBlocks (snapshots this') = unsubscribeFromBlocks (snapshots this) /\
  blocks (snapshots this')
  = replicate (length ls) (Block_hash block) ++ blocks (snapshots this) /\
  latest this' = latest this /\
  database this' = database this /\
  block_listeners this' = block_listeners this.
Proof.
  revert this. induction ls as [|l ls IH]; intros this; [done |].
  cbn [fold_left length replicate].
  destruct (IH (snapshot_listener block this)) as (-> & -> & -> & -> & -> & ->).
  cbn. repeat split.
  generalize (length ls). intros n.
  induction n as [|n IHn]; [reflexivity |].
  cbn. f_equal. exact IHn.
Qed.

(** The controller after one pass of the save pipeline. *)
Lemma handleNewBlockData_state this blockData :
  let this' := fst (handleNewBlockData this blockData) in
  let block := fillNewBlock this blockData in
  latest this' = block /\
  block_listeners this' = block_listeners this /\
  db_blocks (database this')
  = <[inl (block_number block) := block]>
      (<[inr (Block_hash block) := block]> (db_blocks (database this))) /\
  snaps (snapshots this') = snaps (snapshots this) /\
  unsubscribeFromBlocks (snapshots this') = unsubscribeFromBlocks (snapshots this) /\
  blocks (snapshots this')
  = replicate (length (block_listeners this)) (Block_hash block)
      ++ blocks (snapshots this).
Proof.
  unfold handleNewBlockData, saveNewBlock.
  pose proof (saveTransactions_blocks (Block_hash (fillNewBlock this blockData))
    (number (header (fillNewBlock this blockData)))
    (timestamp (header (fillNewBlock this blockData)) * 1000)
    (transactions (fillNewBlock this blockData)) 0
    (database (set_latest (fillNewBlock this blockData) this))
    (BlockLogs_create (Block_hash (fillNewBlock this blockData))) []) as Hdb.
  destruct (saveTransactions _ _ _ _ _ _) as [[db blockLogs] log].
  cbn [fst snd] in Hdb. cbn [database set_latest] in Hdb.
  unfold emitNewBlock, emit_block.
  destruct (instamine _ && _); cbn [fst];
    match goal with
    | |- context [fold_left ?f ?ls ?s] =>
      destruct (listeners_snapshots (fillNewBlock this blockData) ls s)
        as (-> & -> & -> & -> & -> & ->)
    end; cbn; rewrite Hdb; repeat split; reflexivity.
Qed.

Hypothesis Hhash : hash_fixes_number.

Lemma hash_neq_of_number (a b : Block) :
  block_number a <> block_number b -> Block_hash a <> Block_hash b.
Proof. intros Hn Hh. apply Hn, Hhash, Hh. Qed.

Lemma fillNewBlock_number this blockData :
  block_number (fillNewBlock this blockData) = block_number (latest this) + 1.
Proof. unfold block_number, header_number. cbn. apply header_number_from. Qed.

Lemma wf_minerBlock root nodes blockData this :
  wf this -> wf (minerBlock root nodes blockData this).
Proof.
  intros ((bs & Hb & Hst & Hsort & Hle & Hgt) & Hlisten & Hso & Hsl).
  unfold minerBlock.
  set (this0 := set_database _ (set_trie_root root this)).
  destruct (handleNewBlockData_state this0 blockData)
    as (Hl & Hbl & Hdb & Hsn & Hun & Hbk).
  pose proof (fillNewBlock_number this0 blockData) as Hnum.
  set (block := fillNewBlock this0 blockData) in *.
  change (latest this0) with (latest this) in Hnum.
  change (block_listeners this0) with (block_listeners this) in Hbl, Hbk.
  change (snapshots this0) with (snapshots this) in Hsn, Hun, Hbk.
  change (db_blocks (database this0)) with (db_blocks (database this)) in Hdb.
  assert (Hfresh : Forall (fun b => Block_hash b <> Block_hash block) bs).
  { eapply Forall_impl; [exact Hle |]. intros b Hbn.
    cbv beta in Hbn. apply hash_neq_of_number. lia. }
  unfold wf, tracked, listening, snaps_ordered.
  rewrite Hl, Hbl, Hdb, Hsn, Hun, Hbk.
  unfold listening in Hlisten.
  destruct (snaps (snapshots this)) as [|s0 ss] eqn:Hsnaps.
  - destruct Hlisten as [Hnil Hls]. rewrite Hls, Hnil. cbn.
    rewrite Hnil in Hb. destruct bs; [| discriminate].
    split; [exists []; repeat split; constructor |].
    split; [done |]. split; constructor.
  - destruct Hlisten as (id & Hls & Hunsub). rewrite Hls. cbn [length replicate app].
    split; [exists (block :: bs) | split; [eauto |]].
    + split; [cbn; by rewrite Hb |].
      split.
      { constructor.
        - rewrite lookup_insert_ne by done. apply lookup_insert_eq.
        - rewrite Forall_forall in Hst, Hfresh. apply Forall_forall. intros b Hbin.
          rewrite lookup_insert_ne by done.
          rewrite lookup_insert_ne; [by apply Hst |].
          intros [=Heq]. by apply (Hfresh b Hbin). }
      split.
      { constructor; [exact Hsort |].
        eapply Forall_impl; [exact Hle |]. intros b Hbn. cbv beta in Hbn. lia. }
      split.
      { constructor; [lia |]. eapply Forall_impl; [exact Hle |].
        intros b Hbn. cbv beta in Hbn. lia. }
      constructor; [| exact Hgt].
      intros s [= <-]. apply Forall_cons in Hsl as [Hs0 _]. lia.
    + split; [exact Hso |].
      eapply Forall_impl; [exact Hsl |]. intros s Hs. cbv beta in Hs. lia.
Qed.

(** The controller after [snapshot()]. *)
Lemma snapshot_state this :
  let r := snapshot this in
  fst r = Z.of_nat (length (snaps (snapshots this))) + 1 /\
  snaps (snapshots (snd r))
  = snaps (snapshots this)
      ++ [{| snap_block := latest this;
             snap_timeAdjustment := timeAdjustment this |}] /\
  blocks (snapshots (snd r)) = blocks (snapshots this) /\
  latest (snd r) = latest this /\
  database (snd r) = database this /\
  timeAdjustment (snd r) = timeAdjustment this /\
  pool (snd r) = pool this /\
  match snaps (snapshots this) with
  | [] =>
    block_listeners (snd r) = block_listeners this ++ [next_listener this] /\
    unsubscribeFromBlocks (snapshots (snd r)) = Some (next_listener this)
  | _ :: _ =>
    block_listeners (snd r) = block_listeners this /\
    unsubscribeFromBlocks (snapshots (snd r))
    = unsubscribeFromBlocks (snapshots this)
  end.
Proof.
  unfold snapshot. rewrite length_app. cbn [length fst snd].
  destruct (snaps (snapshots this)) as [|s0 ss].
  - change (Z.of_nat (length (@nil Snapshot) + 1) =? 1) with true.
    cbn. repeat split.
  - replace (Z.of_nat (length (s0 :: ss) + 1) =? 1) with false
      by (symmetry; apply Z.eqb_neq; cbn [length]; lia).
    cbn. repeat split. lia.
Qed.

Lemma wf_snapshot this : wf this -> wf (snd (snapshot this)).
Proof.
  intros ((bs & Hb & Hst & Hsort & Hle & Hgt) & Hlisten & Hso & Hsl).
  destruct (snapshot_state this) as (_ & Hsn & Hbk & Hl & Hdb & _ & _ & Hls).
  unfold wf, tracked, listening, snaps_ordered.
  rewrite Hsn, Hbk, Hl, Hdb.
  unfold listening in Hlisten.
  destruct (snaps (snapshots this)) as [|s0 ss] eqn:Hsnaps.
  - destruct Hlisten as [Hnil Hnone]. destruct Hls as [-> ->].
    rewrite Hnil in Hb. destruct bs; [| discriminate].
    rewrite Hnil, Hnone. cbn.
    split; [exists []; repeat split; constructor |].
    split; [eauto |].
    split; repeat constructor. cbn. lia.
  - destruct Hlisten as (id & Hid & Hunsub). destruct Hls as [-> ->].
    split; [exists bs; repeat split; done |].
    split; [cbn; eauto |].
    split.
    + apply StronglySorted_app_2; [| exact Hso | repeat constructor].
      intros s1 s2 Hs1 Hs2. apply list_elem_of_singleton in Hs2 as ->. cbn.
      rewrite Forall_forall in Hsl. by apply Hsl.
    + apply Forall_app. split; [exact Hsl |]. repeat constructor. cbn. lia.
Qed.

Local Ltac revert_fields :=
  cbn [pool_clear pool_pause pool_resume set_miner_paused set_pool set_snapshots
       emitted set_trace set_latest set_timeAdjustment set_database
       set_trie_root set_sm_cache set_sm_storageTries setStateRootSync
       deleteBlockData off_block set_block_listeners
       snapshots latest snaps blocks unsubscribeFromBlocks database
       block_listeners timeAdjustment fst snd negb Nat.eqb].

(** On a well-formed controller, reverting to a live snapshot goes
    through and leaves a well-formed controller. *)
Lemma revert_live (k : Z) (this : Blockchain) (snapshot : Snapshot) :
  wf this -> 1 <= k ->
  snaps (snapshots this) !! Z.to_nat (k - 1) = Some snapshot ->
  exists this', revert (Some k) this = (Returned true, this') /\ wf this'.
Proof.
  intros ((bs & Hb & Hst & Hsort & Hle & Hgt) & Hlisten & Hso & Hsl) Hk Hs.
  unfold revert.
  destruct (Z.ltb_spec k 1) as [Hlt | _]; [lia |].
  cbn [snapshots emitted set_trace]. rewrite Hs.
  set (i := Z.to_nat (k - 1)) in *.
  pose proof (lookup_lt_Some _ _ _ Hs) as Hi.
  revert_fields.
  rewrite length_take_le by lia.
  unfold listening in Hlisten.
  destruct (snaps (snapshots this)) as [|s0 ss] eqn:Hsnaps; [discriminate |].
  destruct Hlisten as (id & Hls & Hunsub). rewrite Hunsub.
  assert (Hsnum : Forall (fun s => block_number (snap_block s)
                                   <= block_number (snap_block snapshot))
                    (take i (s0 :: ss))).
  { rewrite <- (take_drop_middle _ _ _ Hs) in Hso.
    apply Forall_forall. intros s Hin.
    eapply (StronglySorted_app_1_elem_of _ _ _ _ _ Hso); [exact Hin | left]. }
  destruct (bool_decide (header_hash (header (latest this))
                         = header_hash (header (snap_block snapshot)))) eqn:Hcur.
  - (* the head is the snapshot's block *)
    apply bool_decide_eq_true in Hcur. pose proof (Hhash _ _ Hcur) as Hnum.
    fold (block_number (latest this)) in Hnum.
    fold (block_number (snap_block snapshot)) in Hnum.
    destruct i as [|i'] eqn:Hi0; revert_fields.
    + eexists. split; [reflexivity |].
      cbn in Hs. injection Hs as ->.
      assert (bs = []) as ->.
      { destruct bs as [|b bs']; [reflexivity |]. exfalso.
        apply Forall_cons in Hle as [Hle _]. apply Forall_cons in Hgt as [Hgt _].
        specialize (Hgt snapshot eq_refl). lia. }
      unfold wf, tracked, listening, snaps_ordered. revert_fields.
      rewrite Hb, Hls. cbn.
      rewrite decide_False by (intros Hne; apply Hne; reflexivity). cbn.
      split; [exists []; repeat split; constructor |].
      split; [done |]. split; constructor.
    + eexists. split; [reflexivity |].
      unfold wf, tracked, listening, snaps_ordered. revert_fields. cbn [take].
      split; [exists bs; repeat split; done |].
      split; [eauto |].
      split.
      * rewrite <- (take_drop (S i') (s0 :: ss)) in Hso.
        apply StronglySorted_app_1_l in Hso. exact Hso.
      * change (s0 :: take i' ss) with (take (S i') (s0 :: ss)).
        apply Forall_take. exact Hsl.
  - (* blocks were added since the snapshot *)
    apply bool_decide_eq_false in Hcur.
    destruct (walkBlocks_split (header_hash (header (snap_block snapshot))) bs)
      as (pre & post & -> & Hwalk & Hpost).
    apply Forall_app in Hst as [Hst_pre Hst_post].
    apply Forall_app in Hle as [Hle_pre Hle_post].
    apply Forall_app in Hgt as [Hgt_pre Hgt_post].
    assert (Hkeep : Forall (fun b =>
              db_blocks (fold_left deleteBlock pre (database this))
                !! inr (Block_hash b) = Some b) post).
    { apply Forall_forall. intros b Hin.
      rewrite deleteBlocks_lookup_hash.
      - rewrite Forall_forall in Hst_post. by apply Hst_post.
      - apply Forall_forall. intros p Hp. apply hash_neq_of_number.
        pose proof (StronglySorted_app_1_elem_of _ _ _ _ _ Hsort Hp Hin) as Hlt.
        cbv beta in Hlt. lia. }
    assert (Hbelow : Forall (fun b => block_number b
                                      <= block_number (snap_block snapshot)) post).
    { destruct post as [|b0 post']; [constructor |].
      apply Hhash in Hpost. fold (block_number b0) in Hpost.
      fold (block_number (snap_block snapshot)) in Hpost.
      apply StronglySorted_app_1_r, StronglySorted_cons in Hsort as [Hsort _].
      constructor; [lia |].
      eapply Forall_impl; [exact Hsort |]. intros b Hbn. cbv beta in Hbn. lia. }
    destruct i as [|i'] eqn:Hi0; revert_fields.
    + rewrite Hb, Hwalk. revert_fields. rewrite (getAllByHash_stored _ _ Hst_pre).
      revert_fields.
      eexists. split; [reflexivity |].
      cbn in Hs. injection Hs as ->.
      assert (post = []) as ->.
      { destruct post as [|b0 post']; [reflexivity |]. exfalso.
        apply Forall_cons in Hgt_post as [Hgt0 _].
        apply Forall_cons in Hbelow as [Hb0 _].
        specialize (Hgt0 snapshot eq_refl). lia. }
      unfold wf, tracked, listening, snaps_ordered. revert_fields.
      rewrite Hls. cbn.
      rewrite decide_False by (intros Hne; apply Hne; reflexivity). cbn.
      split; [exists []; repeat split; constructor |].
      split; [done |]. split; constructor.
    + rewrite Hb, Hwalk. revert_fields. rewrite (getAllByHash_stored _ _ Hst_pre).
      revert_fields.
      eexists. split; [reflexivity |].
      unfold wf, tracked, listening, snaps_ordered. revert_fields. cbn [take].
      split; [exists post | split; [eauto |]].
      * split; [reflexivity |]. split; [exact Hkeep |].
        split; [exact (StronglySorted_app_1_r _ _ _ Hsort) |].
        split; [exact Hbelow |]. exact Hgt_post.
      * split.
        -- rewrite <- (take_drop (S i') (s0 :: ss)) in Hso.
           apply StronglySorted_app_1_l in Hso. exact Hso.
        -- exact Hsnum.
Qed.

(** An id that is below 1 or above the number of live snapshots: [revert]
    returns false, and nothing but the logger has been reached. *)
Lemma revert_unknown (k : Z) (this : Blockchain) :
  k < 1 \/ Z.of_nat (length (snaps (snapshots this))) < k ->
  revert (Some k) this
  = (Returned false, emitted [EvLog (LogRevertingToSnapshot k)] this).
Proof.
  intros Hk. unfold revert.
  destruct (Z.ltb_spec k 1) as [Hlt | Hge]; [reflexivity |].
  cbn [snapshots emitted set_trace].
  rewrite (proj2 (lookup_ge_None _ _)); [reflexivity | lia].
Qed.

Lemma revert_wf (snapshotId : Quantity) (this : Blockchain) :
  wf this ->
  wf (snd (revert snapshotId this)) /\
  (threw (fst (revert snapshotId this)) <-> snapshotId = None) /\
  (forall k, snapshotId = Some k ->
     (fst (revert snapshotId this) = Returned true
      <-> 1 <= k <= Z.of_nat (length (snaps (snapshots this))))).
Proof.
  intros Hwf.
  destruct snapshotId as [k|]; [| cbn; split; [exact Hwf | split; done]].
  destruct (decide (1 <= k <= Z.of_nat (length (snaps (snapshots this)))))
    as [Hk | Hk].
  - destruct (lookup_lt_is_Some_2 (snaps (snapshots this)) (Z.to_nat (k - 1)))
      as [snapshot Hs]; [lia |].
    destruct (revert_live k this snapshot Hwf (proj1 Hk) Hs) as (this' & -> & Hwf').
    split; [exact Hwf' |]. split; [split; [intros [] | discriminate] |].
    intros k' [= <-]. done.
  - rewrite revert_unknown by lia.
    split; [exact Hwf |]. split; [split; [intros [] | discriminate] |].
    intros k' [= <-]. cbn. split; [discriminate | intros; lia].
Qed.

Lemma wf_constructor (opts : Options.EthereumInternalOptions)
    (cb : Options.Address) (now : Z) (root : Buffer)
    (nodes : gmap (list Z) (list Z)) :
  wf (constructor opts cb now root nodes).
Proof.
  unfold constructor. destruct (constructor_notices opts) as [i notices].
  unfold wf, tracked, listening, snaps_ordered. cbn.
  split; [exists []; repeat split; constructor |].
  split; [done |]. split; constructor.
Qed.

Lemma wf_step (this : Blockchain) (c : Call) : wf this -> wf (step this c).
Proof.
  intros Hwf. destruct c; cbn [step].
  - apply wf_snapshot, Hwf.
  - apply revert_wf, Hwf.
  - exact Hwf.
  - exact Hwf.
  - destruct (simulateTransaction_frame transaction parentBlock this)
      as [-> | (vm & callOpts & _ & ->)]; exact Hwf.
  - exact Hwf.
  - apply wf_minerBlock, Hwf.
  - exact Hwf.
Qed.

Lemma wf_run (calls : list Call) (this : Blockchain) :
  wf this -> wf (run calls this).
Proof.
  revert this. induction calls as [|c calls IH]; intros this Hwf; [exact Hwf |].
  cbn [run fold_left]. apply IH, wf_step, Hwf.
Qed.

Lemma revert_true_inv (k : Z) (this this' : Blockchain) :
  revert (Some k) this = (Returned true, this') ->
  exists snapshot,
    1 <= k /\
    snaps (snapshots this) !! Z.to_nat (k - 1) = Some snapshot /\
    Block_hash (latest this') = Block_hash (snap_block snapshot) /\
    timeAdjustment this' = snap_timeAdjustment snapshot /\
    snaps (snapshots this') = take (Z.to_nat (k - 1)) (snaps (snapshots this)).
Proof.
  unfold revert. intros Hr.
  destruct (Z.ltb_spec k 1) as [|Hk]; [discriminate |].
  cbn [snapshots emitted set_trace] in Hr.
  destruct (snaps (snapshots this) !! Z.to_nat (k - 1)) as [snapshot|] eqn:Hs;
    [| discriminate].
  exists snapshot. split; [lia |]. split; [reflexivity |].
  repeat case_match; simplify_eq; cbn;
    try (repeat split; reflexivity).
  all: match goal with
       | Hd : negb (bool_decide _) = false |- _ =>
         apply negb_false_iff, bool_decide_eq_true in Hd; cbn in Hd
       end.
  all: repeat split; done.
Qed.

(** C1: in every run of the controller, [snapshot()] returns the new
    length of the snapshot list, the new snapshot being the last one and
    holding the head block and the clock offset of that moment; [revert(k)]
    succeeds exactly for the ids of the live snapshots, 1 to the length of
    the list; and after a successful [revert(k)] the hash of the head block
    is the hash of the block of snapshot [k], the clock offset is the one
    of snapshot [k], and the list holds the snapshots before [k] only: no
    id from [k] on is left. *)
Theorem snapshot_ids_and_revert
    (calls : list Call) (opts : Options.EthereumInternalOptions)
    (cb : Options.Address) (now : Z) (root : Buffer)
    (nodes : gmap (list Z) (list Z)) :
  let this := run calls (constructor opts cb now root nodes) in
  (let r := snapshot this in
   fst r = Z.of_nat (length (snaps (snapshots (snd r)))) /\
   snaps (snapshots (snd r))
   = snaps (snapshots this)
       ++ [{| snap_block := latest this;
              snap_timeAdjustment := timeAdjustment this |}] /\
   snaps (snapshots (snd r)) !! Z.to_nat (fst r - 1)
   = Some {| snap_block := latest this;
             snap_timeAdjustment := timeAdjustment this |}) /\
  (forall k : Z,
     (fst (revert (Some k) this) = Returned true
      <-> 1 <= k <= Z.of_nat (length (snaps (snapshots this)))) /\
     (forall this',
        revert (Some k) this = (Returned true, this') ->
        exists snapshot,
          snaps (snapshots this) !! Z.to_nat (k - 1) = Some snapshot /\
          Block_hash (latest this') = Block_hash (snap_block snapshot) /\
          timeAdjustment this' = snap_timeAdjustment snapshot /\
          snaps (snapshots this')
          = take (Z.to_nat (k - 1)) (snaps (snapshots this)) /\
          (forall j, k <= j ->
             snaps (snapshots this') !! Z.to_nat (j - 1) = None))).
Proof.
  intros this.
  assert (Hwf : wf this) by apply wf_run, wf_constructor.
  split.
  - destruct (snapshot_state this) as (Hid & Hsn & _).
    cbv zeta. rewrite Hsn, Hid, length_app. cbn [length].
    split; [lia |]. split; [reflexivity |].
    replace (Z.to_nat (Z.of_nat (length (snaps (snapshots this))) + 1 - 1))
      with (length (snaps (snapshots this)) + 0)%nat by lia.
    rewrite lookup_app_r by lia.
    replace (length (snaps (snapshots this)) + 0
             - length (snaps (snapshots this)))%nat with 0%nat by lia.
    reflexivity.
  - intros k. split.
    + apply (revert_wf (Some k) this Hwf). reflexivity.
    + intros this' Hr.
      destruct (revert_true_inv k this this' Hr)
        as (snapshot & Hk & Hs & Hh & Ht & Hsn).
      exists snapshot. repeat split; try done.
      intros j Hj. rewrite Hsn. apply lookup_ge_None.
      rewrite length_take. lia.
Qed.

(** C2: [revert] of an id that is at least 1 but above the number of live
    snapshots returns false and leaves the snapshots, the pool, the head
    block, the clock offset, the database, the trie root, the listeners and
    the miner as they were, whatever the controller's state; and in every
    run of the controller [revert] throws if and only if the id is null or
    undefined. *)
Theorem revert_unknown_id_and_throw
    (calls : list Call) (opts : Options.EthereumInternalOptions)
    (cb : Options.Address) (now : Z) (root : Buffer)
    (nodes : gmap (list Z) (list Z)) :
  (forall (this : Blockchain) (id : Z),
     1 <= id -> Z.of_nat (length (snaps (snapshots this))) < id ->
     exists this',
       revert (Some id) this = (Returned false, this') /\
       snapshots this' = snapshots this /\
       pool this' = pool this /\
       latest this' = latest this /\
       timeAdjustment this' = timeAdjustment this /\
       database this' = database this /\
       trie_root this' = trie_root this /\
       block_listeners this' = block_listeners this /\
       miner_paused this' = miner_paused this) /\
  (forall snapshotId : Quantity,
     threw (fst (revert snapshotId (run calls (constructor opts cb now root nodes))))
     <-> snapshotId = None).
Proof.
  split.
  - intros this id Hid Hlen. eexists. split; [apply revert_unknown; lia |].
    repeat split.
  - intros snapshotId. apply revert_wf, wf_run, wf_constructor.
Qed.

End SnapshotInvariants.

(** A snapshot on the genesis block, two blocks, an hour added to the
    clock, a second snapshot and a third block: reverting to snapshot 1
    brings back the genesis block, its state root and the offset 0, and
    empties the list. *)
Example revert_to_first_snapshot :
  let this := @run exampleCollaborators exampleCalls (exampleChain 0 false false) in
  let r := @revert exampleCollaborators (Some 1) this in
  block_number (latest this) = 3 /\
  timeAdjustment this = 3600 /\
  blocks (snapshots this) = [[3]; [2]; [1]] /\
  fst r = Returned true /\
  block_number (latest (snd r)) = 0 /\
  trie_root (snd r) = [1] /\
  timeAdjustment (snd r) = 0 /\
  snaps (snapshots (snd r)) = [] /\
  blocks (snapshots (snd r)) = [] /\
  block_listeners (snd r) = [] /\
  db_blocks (database (snd r)) !! inr [1] = None /\
  fst (@revert exampleCollaborators (Some 99) this) = Returned false /\
  fst (@revert exampleCollaborators None this) = Threw (Error "invalid snapshotId").
Proof. vm_compute. repeat split. Qed.

Lemma snapshot_ids_and_revert_witness :
  let this := @run exampleCollaborators exampleCalls (exampleChain 0 false false) in
  (let r := @snapshot this in
   fst r = Z.of_nat (length (snaps (snapshots (snd r)))) /\
   snaps (snapshots (snd r))
   = snaps (snapshots this)
       ++ [{| snap_block := latest this;
              snap_timeAdjustment := timeAdjustment this |}] /\
   snaps (snapshots (snd r)) !! Z.to_nat (fst r - 1)
   = Some {| snap_block := latest this;
             snap_timeAdjustment := timeAdjustment this |}) /\
  (forall k : Z,
     (fst (@revert exampleCollaborators (Some k) this) = Returned true
      <-> 1 <= k <= Z.of_nat (length (snaps (snapshots this)))) /\
     (forall this',
        @revert exampleCollaborators (Some k) this = (Returned true, this') ->
        exists snapshot,
          snaps (snapshots this) !! Z.to_nat (k - 1) = Some snapshot /\
          @Block_hash exampleCollaborators (latest this')
          = @Block_hash exampleCollaborators (snap_block snapshot) /\
          timeAdjustment this' = snap_timeAdjustment snapshot /\
          snaps (snapshots this')
          = take (Z.to_nat (k - 1)) (snaps (snapshots this)) /\
          (forall j, k <= j ->
             snaps (snapshots this') !! Z.to_nat (j - 1) = None))).
Proof.
  exact (@snapshot_ids_and_revert exampleCollaborators
           ltac:(intros h1 h2 Heq; cbn in Heq; congruence)
           exampleCalls (exampleOptions 0 false false None)
           Options.ACCOUNT_ZERO 0 [1] ∅).
Defined.

Lemma revert_unknown_id_and_throw_witness :
  (forall (this : Blockchain) (id : Z),
     1 <= id -> Z.of_nat (length (snaps (snapshots this))) < id ->
     exists this',
       @revert exampleCollaborators (Some id) this = (Returned false, this') /\
       snapshots this' = snapshots this /\
       pool this' = pool this /\
       latest this' = latest this /\
       timeAdjustment this' = timeAdjustment this /\
       database this' = database this /\
       trie_root this' = trie_root this /\
       block_listeners this' = block_listeners this /\
       miner_paused this' = miner_paused this) /\
  (forall snapshotId : Quantity,
     threw (fst (@revert exampleCollaborators snapshotId
                   (@run exampleCollaborators exampleCalls
                      (exampleChain 0 false false))))
     <-> snapshotId = None).
Proof.
  exact (@revert_unknown_id_and_throw exampleCollaborators
           ltac:(intros h1 h2 Heq; cbn in Heq; congruence)
           exampleCalls (exampleOptions 0 false false None)
           Options.ACCOUNT_ZERO 0 [1] ∅).
Defined.

(** * More of the controller *)

(** ** The save pipeline, store by store *)

Section SavePipeline.
Context `{Collaborators}.

Lemma fold_append_logs (i : Z) (hash : Buffer) (logs : list Buffer) (bl : BlockLogs) :
  fold_left (BlockLogs_append i hash) logs bl
  = {| bl_blockHash := bl_blockHash bl;
       bl_blockNumber := bl_blockNumber bl;
       bl_logs := bl_logs bl ++ map (fun log => (i, hash, log)) logs |}.
Proof.
  revert bl. induction logs as [|l logs IH]; intros bl.
  - cbn. rewrite app_nil_r. destruct bl; reflexivity.
  - cbn [fold_left map]. rewrite IH. cbn. rewrite <- app_assoc. reflexivity.
Qed.

(** What the loop over the transactions leaves: the logs and log lines
    appended in order, and the other stores untouched. *)
Lemma saveTransactions_result blockHash blockNumber ts txs :
  forall i db bl log,
    let r := saveTransactions blockHash blockNumber ts i txs (db, bl, log) in
    r.1.2 = {| bl_blockHash := bl_blockHash bl;
               bl_blockNumber := bl_blockNumber bl;
               bl_logs := bl_logs bl ++ blockLogEntries i txs |} /\
    r.2 = log ++ map (fun tx =>
                        EvLog (LogTransaction (tx_hash tx) (tx_receipt tx)
                                 blockNumber ts (execException tx))) txs /\
    db_blocks r.1.1 = db_blocks db /\
    db_blockLogs r.1.1 = db_blockLogs db /\
    db_trie r.1.1 = db_trie db.
Proof.
  induction txs as [|tx txs IH]; intros i db bl log.
  - cbn. rewrite !app_nil_r. destruct bl; done.
  - cbn [saveTransactions]. cbv zeta.
    destruct (IH (i + 1)
      {| db_blocks := db_blocks db;
         db_transactions :=
           <[tx_hash tx := {| stored_raw := tx_raw tx;
                              stored_blockHash := blockHash;
                              stored_blockNumber := blockNumber;
                              stored_index := i;
                              stored_type := tx_type tx;
                              stored_from := tx_from tx |}]> (db_transactions db);
         db_transactionReceipts :=
           <[tx_hash tx := tx_receipt tx]> (db_transactionReceipts db);
         db_blockLogs := db_blockLogs db;
         db_trie := db_trie db |}
      (fold_left (BlockLogs_append i (tx_hash tx)) (tx_logs tx) bl)
      (log ++ [EvLog (LogTransaction (tx_hash tx) (tx_receipt tx) blockNumber ts
                        (execException tx))]))
      as (-> & -> & -> & -> & ->).
    rewrite fold_append_logs. cbn. rewrite <- !app_assoc. done.
Qed.

(** A hash that no transaction of the list has keeps its entries. *)
Lemma saveTransactions_other blockHash blockNumber ts txs (k : Buffer) :
  k ∉ map tx_hash txs ->
  forall i db bl log,
    let r := saveTransactions blockHash blockNumber ts i txs (db, bl, log) in
    db_transactions r.1.1 !! k = db_transactions db !! k /\
    db_transactionReceipts r.1.1 !! k = db_transactionReceipts db !! k.
Proof.
  induction txs as [|tx txs IH]; intros Hk i db bl log; [done |].
  cbn [map] in Hk. apply not_elem_of_cons in Hk as [Hne Hk].
  cbn [saveTransactions]. cbv zeta.
  match goal with
  | |- context [saveTransactions _ _ _ _ _ (?db', ?bl', ?log')] =>
    destruct (IH Hk (i + 1) db' bl' log') as [-> ->]
  end.
  cbn. rewrite !lookup_insert_ne by done. done.
Qed.

(** With distinct hashes, the transaction at position [j] is stored under
    its hash with index [i + j], and so is its receipt. *)
Lemma saveTransactions_stored blockHash blockNumber ts txs :
  NoDup (map tx_hash txs) ->
  forall i db bl log (j : nat) tx,
    txs !! j = Some tx ->
    let r := saveTransactions blockHash blockNumber ts i txs (db, bl, log) in
    db_transactions r.1.1 !! tx_hash tx
    = Some (storedTransaction blockHash blockNumber (i + Z.of_nat j) tx) /\
    db_transactionReceipts r.1.1 !! tx_hash tx = Some (tx_receipt tx).
Proof.
  induction txs as [|tx0 txs IH]; intros Hnd i db bl log j tx Hj; [done |].
  cbn [map] in Hnd. apply NoDup_cons in Hnd as [Hfresh Hnd].
  cbn [saveTransactions]. cbv zeta.
  destruct j as [|j].
  - injection Hj as ->.
    match goal with
    | |- context [saveTransactions _ _ _ _ _ (?db', ?bl', ?log')] =>
      destruct (saveTransactions_other blockHash blockNumber ts txs (tx_hash tx)
                  Hfresh (i + 1) db' bl' log') as [-> ->]
    end.
    cbn. rewrite !lookup_insert_eq. rewrite Z.add_0_r. done.
  - cbn in Hj.
    match goal with
    | |- context [saveTransactions _ _ _ _ _ (?db', ?bl', ?log')] =>
      destruct (IH Hnd (i + 1) db' bl' log' j tx Hj) as [-> ->]
    end.
    split; [| done]. do 2 f_equal. lia.
Qed.

(** The controller and the block logs after one pass of the pipeline, in
    terms of the loop over the transactions. *)
Lemma handleNewBlockData_result this blockData :
  let block := fillNewBlock this blockData in
  let saved :=
    saveTransactions (Block_hash block) (number (header block))
      (timestamp (header block) * 1000) 0 (transactions block)
      (database this, BlockLogs_create (Block_hash block), []) in
  let blockLogs := BlockLogs_set_blockNumber (number (header block)) saved.1.2 in
  let r := handleNewBlockData this blockData in
  snd r = (block, blockLogs) /\
  database (fst r)
  = putBlock block
      {| db_blocks := db_blocks saved.1.1;
         db_transactions := db_transactions saved.1.1;
         db_transactionReceipts := db_transactionReceipts saved.1.1;
         db_blockLogs :=
           <[header_number (header block) := blockLogs]> (db_blockLogs saved.1.1);
         db_trie := db_trie saved.1.1 |} /\
  trace (fst r)
  = trace this ++ saved.2
      ++ map (fun transaction =>
                EvFinalize (tx_hash transaction) "confirmed"
                  (if Options.vmErrorsOnRPCResponse (Options.chain (options this))
                   then execException transaction else None))
           (transactions block)
      ++ (if instamine this
             && Options.legacyInstamine (Options.miner (options this))
          then [EvNextTick] else [])
      ++ [EvEmitBlockLogs blockLogs; EvEmitBlock block] /\
  trie_root (fst r) = trie_root this /\
  timeAdjustment (fst r) = timeAdjustment this /\
  pool (fst r) = pool this /\
  miner_paused (fst r) = miner_paused this /\
  state (fst r) = state this /\
  options (fst r) = options this /\
  earliest (fst r) = earliest this.
Proof.
  cbv zeta. unfold handleNewBlockData, saveNewBlock.
  cbn [database set_latest].
  destruct (saveTransactions _ _ _ _ _ _) as [[db blockLogs] log].
  cbn [fst snd]. unfold emitNewBlock.
  cbn [instamine options emitted set_trace set_database set_latest].
  assert (Hfold : forall block ls s,
    let s' := fold_left (fun this0 (_ : nat) => snapshot_listener block this0) ls s in
    database s' = database s /\ trace s' = trace s /\ trie_root s' = trie_root s /\
    timeAdjustment s' = timeAdjustment s /\ pool s' = pool s /\
    miner_paused s' = miner_paused s /\ state s' = state s /\
    options s' = options s /\ earliest s' = earliest s).
  { clear. intros block ls. induction ls as [|l ls IH]; intros s; [done |].
    cbn [fold_left]. cbv zeta in IH.
    destruct (IH (snapshot_listener block s)) as (-> & -> & -> & -> & -> & -> & -> & -> & ->).
    done. }
  destruct (instamine this && _); cbn [fst snd]; unfold emit_block, emit_blockLogs;
    match goal with
    | |- context [fold_left ?f ?ls ?s] =>
      destruct (Hfold (fillNewBlock this blockData) ls s)
        as (-> & -> & -> & -> & -> & -> & -> & -> & ->)
    end; cbn; rewrite <- ?app_assoc; cbn; repeat split; reflexivity.
Qed.

(** X1: a block that went through the save pipeline is the head, can be
    read back from the blocks store under its hash and under its number,
    and the block logs emitted for it are the ones stored under its
    number. *)
Theorem saved_block_is_read_back (this : Blockchain) (blockData : BlockData) :
  let r := handleNewBlockData this blockData in
  let block := (snd r).1 in
  block = fillNewBlock this blockData /\
  latest (fst r) = block /\
  getByHash (Block_hash block) (database (fst r)) = Returned block /\
  db_blocks (database (fst r)) !! inl (header_number (header block)) = Some block /\
  db_blockLogs (database (fst r)) !! header_number (header block)
  = Some (snd r).2.
Proof.
  cbv zeta.
  destruct (handleNewBlockData_result this blockData) as (Hr & Hdb & _).
  rewrite Hdb, Hr, handleNewBlockData_latest. cbn [fst snd].
  split; [reflexivity |]. split; [reflexivity |].
  unfold getByHash, putBlock. cbn.
  rewrite lookup_insert_ne by done. rewrite !lookup_insert_eq. done.
Qed.

(** X2: the block logs of a saved block carry the block's hash and number
    and, in block order, every log of every transaction with the index and
    the hash of its transaction. *)
Theorem saved_blockLogs_content (this : Blockchain) (blockData : BlockData) :
  let r := handleNewBlockData this blockData in
  (snd r).2
  = {| bl_blockHash := Block_hash (fillNewBlock this blockData);
       bl_blockNumber := number (header (fillNewBlock this blockData));
       bl_logs := blockLogEntries 0 (bd_blockTransactions blockData) |}.
Proof.
  cbv zeta.
  destruct (handleNewBlockData_result this blockData) as (-> & _).
  cbn [snd].
  match goal with
  | |- context [saveTransactions ?a ?b ?c ?d ?e (?db, ?bl, ?log)] =>
    destruct (saveTransactions_result a b c e d db bl log) as (-> & _)
  end.
  reflexivity.
Qed.

(** X3: when the transactions of a block have distinct hashes, each of
    them is stored under its hash with its raw fields, the block's hash and
    number, its position in the block, its type and its sender, and its
    receipt is stored under the same hash. *)
Theorem saved_transactions_are_stored (this : Blockchain) (blockData : BlockData)
    (j : nat) (tx : Transaction)
    (Hdistinct : NoDup (map tx_hash (bd_blockTransactions blockData)))
    (Hj : bd_blockTransactions blockData !! j = Some tx) :
  let r := handleNewBlockData this blockData in
  let block := fillNewBlock this blockData in
  db_transactions (database (fst r)) !! tx_hash tx
  = Some {| stored_raw := tx_raw tx;
            stored_blockHash := Block_hash block;
            stored_blockNumber := number (header block);
            stored_index := Z.of_nat j;
            stored_type := tx_type tx;
            stored_from := tx_from tx |} /\
  db_transactionReceipts (database (fst r)) !! tx_hash tx = Some (tx_receipt tx).
Proof.
  cbv zeta.
  destruct (handleNewBlockData_result this blockData) as (_ & -> & _).
  unfold putBlock. cbn.
  match goal with
  | |- context [saveTransactions ?a ?b ?c ?d ?e (?db, ?bl, ?log)] =>
    destruct (saveTransactions_stored a b c e Hdistinct d db bl log j tx Hj)
      as [-> ->]
  end.
  done.
Qed.

(** X4: one pass of the save pipeline writes nothing else: the trie and its
    node store, the clock offset, the pool, the miner, the state and the
    options are as before, and so is every entry of the stores whose key is
    not the new block's number or hash or the hash of one of its
    transactions. *)
Theorem save_pipeline_frame (this : Blockchain) (blockData : BlockData) :
  let r := handleNewBlockData this blockData in
  let block := fillNewBlock this blockData in
  trie_root (fst r) = trie_root this /\
  db_trie (database (fst r)) = db_trie (database this) /\
  timeAdjustment (fst r) = timeAdjustment this /\
  pool (fst r) = pool this /\
  miner_paused (fst r) = miner_paused this /\
  state (fst r) = state this /\
  options (fst r) = options this /\
  earliest (fst r) = earliest this /\
  snaps (snapshots (fst r)) = snaps (snapshots this) /\
  (forall k : Buffer,
     k ∉ map tx_hash (bd_blockTransactions blockData) ->
     db_transactions (database (fst r)) !! k = db_transactions (database this) !! k /\
     db_transactionReceipts (database (fst r)) !! k
     = db_transactionReceipts (database this) !! k) /\
  (forall k : Z + list Z,
     k <> inl (header_number (header block)) -> k <> inr (Block_hash block) ->
     db_blocks (database (fst r)) !! k = db_blocks (database this) !! k) /\
  (forall n : Z,
     n <> header_number (header block) ->
     db_blockLogs (database (fst r)) !! n = db_blockLogs (database this) !! n).
Proof.
  cbv zeta.
  destruct (handleNewBlockData_result this blockData)
    as (_ & Hdb & _ & -> & -> & -> & -> & -> & -> & ->).
  destruct (handleNewBlockData_state this blockData) as (_ & _ & _ & -> & _).
  rewrite Hdb. unfold putBlock. cbn.
  match goal with
  | |- context [saveTransactions ?a ?b ?c ?d ?e (?db, ?bl, ?log)] =>
    destruct (saveTransactions_result a b c e d db bl log)
      as (_ & _ & Hb & Hl & Ht);
    pose proof (fun k Hk => saveTransactions_other a b c e k Hk d db bl log) as Hother
  end.
  cbv zeta in Hother. rewrite Hb, Hl, Ht.
  repeat split; try reflexivity.
  - apply Hother. done.
  - apply Hother. done.
  - intros k Hn Hh. rewrite !lookup_insert_ne by done. done.
  - intros n Hn. rewrite lookup_insert_ne by done. done.
Qed.

(** X5: one pass of the save pipeline reaches the outside in this order:
    one log entry per transaction, then every transaction finalized as
    confirmed (with its execution error only when
    [vmErrorsOnRPCResponse] is set), in block order, then, in legacy
    instamine mode, the next tick, then the [blockLogs] and [block]
    events. *)
Theorem save_pipeline_trace (this : Blockchain) (blockData : BlockData) :
  let r := handleNewBlockData this blockData in
  let block := fillNewBlock this blockData in
  trace (fst r)
  = trace this
      ++ map (fun tx =>
                EvLog (LogTransaction (tx_hash tx) (tx_receipt tx)
                         (number (header block)) (timestamp (header block) * 1000)
                         (execException tx)))
           (bd_blockTransactions blockData)
      ++ map (fun tx =>
                EvFinalize (tx_hash tx) "confirmed"
                  (if Options.vmErrorsOnRPCResponse (Options.chain (options this))
                   then execException tx else None))
           (bd_blockTransactions blockData)
      ++ (if instamine this
             && Options.legacyInstamine (Options.miner (options this))
          then [EvNextTick] else [])
      ++ [EvEmitBlockLogs (snd r).2; EvEmitBlock (snd r).1].
Proof.
  cbv zeta.
  destruct (handleNewBlockData_result this blockData) as (-> & _ & -> & _).
  cbn [fst snd].
  match goal with
  | |- context [saveTransactions ?a ?b ?c ?d ?e (?db, ?bl, ?log)] =>
    destruct (saveTransactions_result a b c e d db bl log) as (_ & -> & _)
  end.
  reflexivity.
Qed.

End SavePipeline.

Lemma saved_transactions_are_stored_witness :
  let this := exampleChain 0 false false in
  let tx := exampleTransaction 12 [] in
  let blockData := exampleBlockDataWith 7 [exampleTransaction 11 [[1]]; tx] in
  let r := @handleNewBlockData exampleCollaborators this blockData in
  let block := @fillNewBlock exampleCollaborators this blockData in
  db_transactions (database (fst r)) !! tx_hash tx
  = Some {| stored_raw := tx_raw tx;
            stored_blockHash := @Block_hash exampleCollaborators block;
            stored_blockNumber := number (header block);
            stored_index := 1;
            stored_type := tx_type tx;
            stored_from := tx_from tx |} /\
  db_transactionReceipts (database (fst r)) !! tx_hash tx = Some (tx_receipt tx).
Proof.
  exact (@saved_transactions_are_stored exampleCollaborators
           (exampleChain 0 false false)
           (exampleBlockDataWith 7
              [exampleTransaction 11 [[1]]; exampleTransaction 12 []])
           1%nat (exampleTransaction 12 [])
           ltac:(cbn; apply NoDup_cons; split;
                 [intros Hin; apply list_elem_of_singleton in Hin; discriminate
                 | apply NoDup_singleton])
           ltac:(reflexivity)).
Defined.

(** ** Deleting block data *)

Section DeleteBlockData.
Context `{Collaborators}.

Lemma elem_of_map_2 {A B : Type} (f : A -> B) (l : list A) (x : A) :
  x ∈ l -> f x ∈ map f l.
Proof.
  induction l as [|y l IH]; [intros Hx; by apply elem_of_nil in Hx |].
  intros [-> | Hx]%elem_of_cons; cbn [map]; apply elem_of_cons; auto.
Qed.

Lemma elem_of_concat_2 {A : Type} (ls : list (list A)) (l : list A) (x : A) :
  x ∈ l -> l ∈ ls -> x ∈ concat ls.
Proof.
  intros Hx. induction ls as [|l' ls IH]; [intros Hl; by apply elem_of_nil in Hl |].
  intros [-> | Hl]%elem_of_cons; cbn [concat]; apply elem_of_app; auto.
Qed.

Lemma deleteTransactions_stores (txs : list Transaction) (db : Database) :
  db_blocks (fold_left deleteTransaction txs db) = db_blocks db /\
  db_blockLogs (fold_left deleteTransaction txs db) = db_blockLogs db /\
  db_trie (fold_left deleteTransaction txs db) = db_trie db.
Proof.
  revert db. induction txs as [|tx txs IH]; intros db; [done |].
  cbn [fold_left]. destruct (IH (deleteTransaction db tx)) as (-> & -> & ->).
  done.
Qed.

Lemma deleteTransactions_lookup (txs : list Transaction) (db : Database)
    (k : Buffer) :
  db_transactions (fold_left deleteTransaction txs db) !! k
  = (if decide (k ∈ map tx_hash txs) then None else db_transactions db !! k) /\
  db_transactionReceipts (fold_left deleteTransaction txs db) !! k
  = (if decide (k ∈ map tx_hash txs) then None
     else db_transactionReceipts db !! k).
Proof.
  revert db. induction txs as [|tx txs IH]; intros db.
  - cbn. rewrite !decide_False by apply not_elem_of_nil. done.
  - cbn [fold_left map]. destruct (IH (deleteTransaction db tx)) as [-> ->].
    cbn [deleteTransaction db_transactions db_transactionReceipts].
    destruct (decide (k ∈ map tx_hash txs)) as [Hin | Hout].
    + rewrite !decide_True by (apply elem_of_cons; right; done). done.
    + destruct (decide (k = tx_hash tx)) as [-> | Hne].
      * rewrite !decide_True by (apply elem_of_cons; left; done). rewrite !lookup_delete_eq. done.
      * rewrite !decide_False by (intros [?|?]%elem_of_cons; done).
        rewrite !lookup_delete_ne by done. done.
Qed.

(** The stores after the data of a list of blocks was deleted, key by
    key. *)
Lemma deleteBlocks_lookup (bs : list Block) (db : Database) :
  let db' := fold_left deleteBlock bs db in
  db_trie db' = db_trie db /\
  (forall k : Buffer,
     db_transactions db' !! k
     = (if decide (k ∈ map tx_hash (transactions_of bs)) then None
        else db_transactions db !! k) /\
     db_transactionReceipts db' !! k
     = (if decide (k ∈ map tx_hash (transactions_of bs)) then None
        else db_transactionReceipts db !! k)) /\
  (forall h : Buffer,
     db_blocks db' !! inr h
     = (if decide (h ∈ map Block_hash bs) then None else db_blocks db !! inr h)) /\
  (forall n : Z,
     db_blocks db' !! inl n
     = (if decide (n ∈ map block_number bs) then None else db_blocks db !! inl n) /\
     db_blockLogs db' !! n
     = (if decide (n ∈ map block_number bs) then None else db_blockLogs db !! n)).
Proof.
  revert db. induction bs as [|b bs IH]; intros db.
  - cbn. repeat split; intros; rewrite !decide_False by apply not_elem_of_nil; done.
  - cbn [fold_left]. cbv zeta in IH |- *.
    destruct (IH (deleteBlock db b)) as (-> & Htx & Hh & Hn).
    destruct (deleteTransactions_stores (transactions b) db) as (Hb & Hl & Ht).
    unfold transactions_of. cbn [map concat]. rewrite map_app.
    split; [exact Ht |]. split; [| split].
    + intros k. destruct (Htx k) as [-> ->].
      destruct (deleteTransactions_lookup (transactions b) db k) as [Hk1 Hk2].
      unfold transactions_of.
      destruct (decide (k ∈ map tx_hash (concat (map transactions bs))))
        as [Hin | Hout].
      * rewrite !decide_True by (apply elem_of_app; right; done). done.
      * cbn [deleteBlock db_transactions db_transactionReceipts].
        rewrite Hk1, Hk2.
        destruct (decide (k ∈ map tx_hash (transactions b))) as [Hin' | Hout'].
        -- rewrite !decide_True by (apply elem_of_app; left; done). done.
        -- rewrite !decide_False by (intros [?|?]%elem_of_app; done). done.
    + intros h. rewrite Hh. cbn [map].
      destruct (decide (h ∈ map Block_hash bs)) as [Hin | Hout].
      * rewrite !decide_True by (apply elem_of_cons; right; done). done.
      * cbn [deleteBlock db_blocks]. rewrite Hb.
        destruct (decide (h = Block_hash b)) as [-> | Hne].
        -- rewrite !decide_True by (apply elem_of_cons; left; done). apply lookup_delete_eq.
        -- rewrite !decide_False by (intros [?|?]%elem_of_cons; done).
           rewrite lookup_delete_ne by (intros [=]; done).
           rewrite lookup_delete_ne by done. done.
    + intros n. destruct (Hn n) as [-> ->]. cbn [map].
      destruct (decide (n ∈ map block_number bs)) as [Hin | Hout].
      * rewrite !decide_True by (apply elem_of_cons; right; done). done.
      * cbn [deleteBlock db_blocks db_blockLogs]. rewrite Hb, Hl.
        destruct (decide (n = block_number b)) as [-> | Hne].
        -- rewrite !decide_True by (apply elem_of_cons; left; done).
           rewrite lookup_delete_ne by done. rewrite !lookup_delete_eq. done.
        -- rewrite !decide_False by (intros [?|?]%elem_of_cons; done).
           rewrite lookup_delete_ne by done.
           rewrite !lookup_delete_ne by (unfold block_number in Hne; congruence).
           done.
Qed.

(** X6: [#deleteBlockData] removes, for every block of the list, the block
    under its number and under its hash, the block logs under its number,
    and every transaction and receipt under the transaction's hash; it
    leaves every other entry of the stores, the trie's node store and the
    rest of the controller as they were. *)
Theorem deleteBlockData_removes_exactly (bs : list Block) (this : Blockchain) :
  let this' := deleteBlockData bs this in
  (forall b, b ∈ bs ->
     getByHash (Block_hash b) (database this') = Threw (NotFoundError (Block_hash b)) /\
     db_blocks (database this') !! inl (block_number b) = None /\
     db_blockLogs (database this') !! block_number b = None /\
     forall tx, tx ∈ transactions b ->
       db_transactions (database this') !! tx_hash tx = None /\
       db_transactionReceipts (database this') !! tx_hash tx = None) /\
  (forall k : Buffer,
     k ∉ map tx_hash (transactions_of bs) ->
     db_transactions (database this') !! k = db_transactions (database this) !! k /\
     db_transactionReceipts (database this') !! k
     = db_transactionReceipts (database this) !! k) /\
  (forall h : Buffer,
     h ∉ map Block_hash bs ->
     db_blocks (database this') !! inr h = db_blocks (database this) !! inr h) /\
  (forall n : Z,
     n ∉ map block_number bs ->
     db_blocks (database this') !! inl n = db_blocks (database this) !! inl n /\
     db_blockLogs (database this') !! n = db_blockLogs (database this) !! n) /\
  db_trie (database this') = db_trie (database this) /\
  this' = set_database (database this') this.
Proof.
  cbv zeta. unfold deleteBlockData. cbn [database set_database].
  destruct (deleteBlocks_lookup bs (database this)) as (Ht & Htx & Hh & Hn).
  cbv zeta in Ht, Htx, Hh, Hn.
  split; [| split; [| split; [| split; [| split]]]].
  - intros b Hb.
    assert (Hbh : Block_hash b ∈ map Block_hash bs) by (by apply elem_of_map_2).
    assert (Hbn : block_number b ∈ map block_number bs) by (by apply elem_of_map_2).
    unfold getByHash. rewrite Hh, decide_True by done.
    destruct (Hn (block_number b)) as [-> ->]. rewrite !decide_True by done.
    repeat split; try done.
    + destruct (Htx (tx_hash tx)) as [-> _]. rewrite decide_True; [done |].
      apply elem_of_map_2. unfold transactions_of.
      eapply elem_of_concat_2; [eassumption |]. by apply elem_of_map_2.
    + destruct (Htx (tx_hash tx)) as [_ ->]. rewrite decide_True; [done |].
      apply elem_of_map_2. unfold transactions_of.
      eapply elem_of_concat_2; [eassumption |]. by apply elem_of_map_2.
  - intros k Hk. destruct (Htx k) as [-> ->]. rewrite !decide_False by done. done.
  - intros h Hout. rewrite Hh, decide_False by done. done.
  - intros n Hout. destruct (Hn n) as [-> ->]. rewrite !decide_False by done. done.
  - exact Ht.
  - reflexivity.
Qed.

Lemma elem_of_map_1 {A B : Type} (f : A -> B) (l : list A) (y : B) :
  y ∈ map f l -> exists x, y = f x /\ x ∈ l.
Proof.
  induction l as [|x l IH]; cbn [map]; [intros Hy; by apply elem_of_nil in Hy |].
  intros [-> | Hy]%elem_of_cons.
  - exists x. split; [done | by apply elem_of_cons; left].
  - destruct (IH Hy) as (x' & -> & Hx'). exists x'.
    split; [done | by apply elem_of_cons; right].
Qed.

Lemma Database_ext (a b : Database) :
  db_blocks a = db_blocks b -> db_transactions a = db_transactions b ->
  db_transactionReceipts a = db_transactionReceipts b ->
  db_blockLogs a = db_blockLogs b -> db_trie a = db_trie b -> a = b.
Proof. destruct a, b; cbn; intros; subst; reflexivity. Qed.

(** X7: saving a block and then deleting its data undoes the save: the
    block is no longer stored under its number or its hash, and, provided
    nothing was stored before under the block's number in the block logs
    or under the hashes of its transactions, the transactions, the
    receipts and the block logs stores are exactly as they were before the
    save, and so is the trie's node store. *)
Theorem save_then_delete_restores_stores (this : Blockchain)
    (blockData : BlockData)
    (Hlogs : db_blockLogs (database this)
               !! block_number (fillNewBlock this blockData) = None)
    (Htxs : Forall (fun tx =>
                      db_transactions (database this) !! tx_hash tx = None /\
                      db_transactionReceipts (database this) !! tx_hash tx = None)
              (bd_blockTransactions blockData)) :
  let block := fillNewBlock this blockData in
  let db :=
    database (deleteBlockData [block] (fst (handleNewBlockData this blockData))) in
  db_transactions db = db_transactions (database this) /\
  db_transactionReceipts db = db_transactionReceipts (database this) /\
  db_blockLogs db = db_blockLogs (database this) /\
  db_trie db = db_trie (database this) /\
  db_blocks db !! inl (block_number block) = None /\
  db_blocks db !! inr (Block_hash block) = None.
Proof.
  cbv zeta. unfold deleteBlockData. cbn [database set_database].
  destruct (deleteBlocks_lookup [fillNewBlock this blockData]
              (database (fst (handleNewBlockData this blockData))))
    as (Ht & Htx & Hh & Hn).
  cbv zeta in Ht, Htx, Hh, Hn.
  destruct (handleNewBlockData_result this blockData) as (_ & Hdb & _).
  cbv zeta in Hdb. rewrite Hdb in *. clear Hdb.
  unfold putBlock in *. cbn [db_blocks db_transactions db_transactionReceipts
    db_blockLogs db_trie set_db_blocks] in *.
  match type of Ht with
  | context [saveTransactions ?a ?b ?c ?d ?e (?db, ?bl, ?log)] =>
    destruct (saveTransactions_result a b c e d db bl log)
      as (_ & _ & Hsb & Hsl & Hst);
    pose proof (fun k Hk => saveTransactions_other a b c e k Hk d db bl log) as Hother
  end.
  cbv zeta in Hother. rewrite Hsb, Hsl, Hst in *.
  unfold transactions_of in Htx. cbn [map concat] in Htx, Hh, Hn.
  rewrite app_nil_r in Htx.
  change (transactions (fillNewBlock this blockData))
    with (bd_blockTransactions blockData) in *.
  rewrite Forall_forall in Htxs.
  split; [| split; [| split; [| split; [exact Ht | split]]]].
  - apply map_eq. intros k. destruct (Htx k) as [-> _].
    destruct (decide (k ∈ map tx_hash (bd_blockTransactions blockData)))
      as [Hin | Hout].
    + apply elem_of_map_1 in Hin as (tx & -> & Hin).
      symmetry. apply (Htxs tx Hin).
    + apply (Hother k Hout).
  - apply map_eq. intros k. destruct (Htx k) as [_ ->].
    destruct (decide (k ∈ map tx_hash (bd_blockTransactions blockData)))
      as [Hin | Hout].
    + apply elem_of_map_1 in Hin as (tx & -> & Hin).
      symmetry. apply (Htxs tx Hin).
    + apply (Hother k Hout).
  - apply map_eq. intros n. destruct (Hn n) as [_ ->].
    destruct (decide (n ∈ [block_number (fillNewBlock this blockData)]))
      as [->%list_elem_of_singleton | Hout]; [done |].
    rewrite lookup_insert_ne
      by (intros <-; apply Hout, list_elem_of_singleton; reflexivity).
    done.
  - destruct (Hn (block_number (fillNewBlock this blockData))) as [-> _].
    rewrite decide_True by (apply list_elem_of_singleton; reflexivity). done.
  - rewrite Hh.
    rewrite decide_True by (apply list_elem_of_singleton; reflexivity). done.
Qed.

End DeleteBlockData.

Lemma save_then_delete_restores_stores_witness :
  let this := exampleChain 0 false false in
  let blockData :=
    exampleBlockDataWith 7 [exampleTransaction 11 [[1]]; exampleTransaction 12 []] in
  let block := @fillNewBlock exampleCollaborators this blockData in
  let db :=
    database (@deleteBlockData exampleCollaborators [block]
                (fst (@handleNewBlockData exampleCollaborators this blockData))) in
  db_transactions db = db_transactions (database this) /\
  db_transactionReceipts db = db_transactionReceipts (database this) /\
  db_blockLogs db = db_blockLogs (database this) /\
  db_trie db = db_trie (database this) /\
  db_blocks db !! inl (@block_number block) = None /\
  db_blocks db !! inr (@Block_hash exampleCollaborators block) = None.
Proof.
  exact (@save_then_delete_restores_stores exampleCollaborators
           (exampleChain 0 false false)
           (exampleBlockDataWith 7
              [exampleTransaction 11 [[1]]; exampleTransaction 12 []])
           ltac:(vm_compute; reflexivity)
           ltac:(repeat constructor)).
Defined.

(** ** Reverting, in detail *)

Section RevertDetail.
Context `{Collaborators}.

(** What a successful [revert] leaves, field by field. *)
Lemma revert_true_state (k : Z) (this this' : Blockchain) :
  revert (Some k) this = (Returned true, this') ->
  exists snapshot,
    1 <= k /\
    snaps (snapshots this) !! Z.to_nat (k - 1) = Some snapshot /\
    snaps (snapshots this') = take (Z.to_nat (k - 1)) (snaps (snapshots this)) /\
    timeAdjustment this' = snap_timeAdjustment snapshot /\
    pool this' = {| pool_transactions := []; pool_paused := false |} /\
    miner_paused this' = false /\
    ((Block_hash (latest this) = Block_hash (snap_block snapshot) /\
      latest this' = latest this /\
      blocks (snapshots this') = blocks (snapshots this) /\
      database this' = database this /\
      trie_root this' = trie_root this) \/
     (Block_hash (latest this) <> Block_hash (snap_block snapshot) /\
      latest this' = snap_block snapshot /\
      blocks (snapshots this')
      = (walkBlocks (Block_hash (snap_block snapshot)) (blocks (snapshots this))).2 /\
      trie_root this' = stateRoot (header (snap_block snapshot)) /\
      sm_cache this' = ∅ /\
      sm_storageTries this' = ∅ /\
      exists deleted,
        getAllByHash
          (walkBlocks (Block_hash (snap_block snapshot)) (blocks (snapshots this))).1
          (database this) = Returned deleted /\
        database this' = fold_left deleteBlock deleted (database this))).
Proof.
  unfold revert. intros Hr.
  destruct (Z.ltb_spec k 1) as [|Hk]; [discriminate |].
  cbn [snapshots emitted set_trace] in Hr.
  destruct (snaps (snapshots this) !! Z.to_nat (k - 1)) as [snapshot|] eqn:Hs;
    [| discriminate].
  exists snapshot. split; [lia |]. split; [reflexivity |].
  repeat case_match; simplify_eq; cbn.
  all: repeat match goal with
       | Hd : negb (bool_decide _) = false |- _ =>
         apply negb_false_iff, bool_decide_eq_true in Hd; cbn in Hd
       | Hd : negb (bool_decide _) = true |- _ =>
         apply negb_true_iff, bool_decide_eq_false in Hd; cbn in Hd
       end.
  all: repeat split; try done.
  all: match goal with
       | Hne : header_hash _ <> header_hash _ |- _ =>
         right;
         match goal with
         | Hw : walkBlocks _ _ = _, Hg : getAllByHash _ _ = _ |- _ =>
           cbn in Hw, Hg; unfold Block_hash; rewrite Hw; cbn [fst snd];
           repeat split; try done; eexists; split; [exact Hg | reflexivity]
         end
       | Heq : header_hash _ = header_hash _ |- _ =>
         left; repeat split; done
       end.
Qed.

(** X8: a [revert] that returns true has emptied the pool and left the
    pool and the miner running, whether or not blocks had to be removed:
    pending transactions are dropped even when the head is still the
    snapshot's block. *)
Theorem revert_empties_pool (k : Z) (this this' : Blockchain)
    (Hreverted : revert (Some k) this = (Returned true, this')) :
  pool this' = {| pool_transactions := []; pool_paused := false |} /\
  miner_paused this' = false.
Proof.
  destruct (revert_true_state k this this' Hreverted)
    as (snapshot & _ & _ & _ & _ & Hpool & Hminer & _).
  done.
Qed.

(** The listeners on [block] after a successful [revert]: the snapshot
    listener is removed exactly when the revert is to the first
    snapshot. *)
Lemma revert_true_listeners (k : Z) (this this' : Blockchain) :
  revert (Some k) this = (Returned true, this') ->
  (k = 1 ->
   exists id, unsubscribeFromBlocks (snapshots this) = Some id /\
              block_listeners this'
              = filter (fun l => l <> id) (block_listeners this)) /\
  (k <> 1 -> block_listeners this' = block_listeners this) /\
  next_listener this' = next_listener this /\
  unsubscribeFromBlocks (snapshots this') = unsubscribeFromBlocks (snapshots this) /\
  earliest this' = earliest this.
Proof.
  unfold revert. intros Hr.
  destruct (Z.ltb_spec k 1) as [|Hk]; [discriminate |].
  cbn [snapshots emitted set_trace] in Hr.
  destruct (snaps (snapshots this) !! Z.to_nat (k - 1)) as [snapshot|] eqn:Hs;
    [| discriminate].
  cbn in Hr. apply lookup_lt_Some in Hs.
  rewrite length_take_le in Hr by lia.
  destruct (Nat.eqb_spec (Z.to_nat (k - 1)) 0) as [Hz | Hnz].
  - destruct (unsubscribeFromBlocks (snapshots this)) as [id|] eqn:Hu;
      [| discriminate].
    repeat case_match; simplify_eq; cbn.
    all: split_and!; try done; try lia.
    all: intros _; exists id; split; done.
  - repeat case_match; simplify_eq; cbn.
    all: split_and!; try done; try lia.
Qed.

(** X9: the head trie follows the head block.  Right after a block is
    saved the root of the head trie is the state root recorded in the new
    head; a [revert] that finds the head away from the snapshot's block
    makes that block the head and resets the trie (root and caches) to its
    state root; a [revert] that finds the head at the snapshot's block, or
    that does not return true, and every call other than the delivery of a
    block and [revert], leave the head and the root as they were. *)
Theorem head_state_root_saved_and_restored (this : Blockchain) :
  (forall blockData : BlockData,
     let this' := fst (handleNewBlockData this blockData) in
     trie_root this' = trie_root this /\
     trie_root this' = stateRoot (header (latest this'))) /\
  (forall (k : Z) (this' : Blockchain),
     revert (Some k) this = (Returned true, this') ->
     exists snapshot,
       snaps (snapshots this) !! Z.to_nat (k - 1) = Some snapshot /\
       (Block_hash (latest this) <> Block_hash (snap_block snapshot) ->
        latest this' = snap_block snapshot /\
        trie_root this' = stateRoot (header (latest this')) /\
        sm_cache this' = ∅ /\
        sm_storageTries this' = ∅) /\
       (Block_hash (latest this) = Block_hash (snap_block snapshot) ->
        latest this' = latest this /\
        trie_root this' = trie_root this)) /\
  (forall snapshotId : Quantity,
     fst (revert snapshotId this) <> Returned true ->
     latest (snd (revert snapshotId this)) = latest this /\
     trie_root (snd (revert snapshotId this)) = trie_root this) /\
  (forall c : Call,
     moves_head c = false ->
     latest (step this c) = latest this /\
     trie_root (step this c) = trie_root this).
Proof.
  split_and!.
  - intros blockData this'. subst this'.
    destruct (handleNewBlockData_result this blockData)
      as (_ & _ & _ & Hroot & _).
    cbv zeta in Hroot. rewrite Hroot, handleNewBlockData_latest.
    split; reflexivity.
  - intros k this' Hr.
    destruct (revert_true_state k this this' Hr)
      as (snapshot & _ & Hs & _ & _ & _ & _ & Hcases).
    exists snapshot. split; [exact Hs |].
    destruct Hcases as [(Heq & Hl & _ & _ & Hroot)
                       | (Hne & Hl & _ & Hroot & Hc & Hst & _)].
    + split; [intros Hne; done | intros _; done].
    + split; [intros _ | intros Heq; done].
      rewrite Hl, Hroot. done.
  - intros snapshotId Hr. unfold revert in *.
    destruct snapshotId as [k|]; [| done].
    repeat case_match; simplify_eq; cbn in *; done.
  - intros c Hc. destruct c; try discriminate; cbn [step].
    + destruct (snapshot_state this) as (_ & _ & _ & Hl & _).
      split; [exact Hl |]. unfold snapshot. cbn. case_match; reflexivity.
    + split; reflexivity.
    + split; reflexivity.
    + destruct (simulateTransaction_frame transaction parentBlock this)
        as [-> | (vm & callOpts & _ & ->)]; split; reflexivity.
    + split; reflexivity.
    + split; reflexivity.
Qed.


(** X10: the listener that feeds [snapshots.blocks].  The snapshot that
    makes the list of snapshots non-empty registers it on [block] and keeps
    the function that removes it; a snapshot taken while others are live
    registers nothing; no snapshot touches [snapshots.blocks].  A
    successful revert to the first snapshot removes the listener whose
    handle is kept, and no other; a successful revert to a later snapshot
    leaves the listeners alone.  When a block is announced, every
    registered listener pushes the block's hash on [snapshots.blocks],
    newest first, and with no listener the list stays as it is. *)
Theorem snapshot_listener_lifecycle (this : Blockchain) :
  (snaps (snapshots this) = [] ->
   block_listeners (snd (snapshot this))
   = block_listeners this ++ [next_listener this] /\
   unsubscribeFromBlocks (snapshots (snd (snapshot this)))
   = Some (next_listener this)) /\
  (snaps (snapshots this) <> [] ->
   block_listeners (snd (snapshot this)) = block_listeners this /\
   unsubscribeFromBlocks (snapshots (snd (snapshot this)))
   = unsubscribeFromBlocks (snapshots this)) /\
  blocks (snapshots (snd (snapshot this))) = blocks (snapshots this) /\
  (forall (k : Z) (this' : Blockchain),
     revert (Some k) this = (Returned true, this') ->
     (k = 1 ->
      exists id, unsubscribeFromBlocks (snapshots this) = Some id /\
                 block_listeners this'
                 = filter (fun l => l <> id) (block_listeners this)) /\
     (k <> 1 -> block_listeners this' = block_listeners this)) /\
  (forall block : Block,
     blocks (snapshots (emit_block block this))
     = replicate (length (block_listeners this)) (Block_hash block)
         ++ blocks (snapshots this) /\
     block_listeners (emit_block block this) = block_listeners this /\
     snaps (snapshots (emit_block block this)) = snaps (snapshots this)).
Proof.
  destruct (snapshot_state this) as (_ & _ & Hb & _ & _ & _ & _ & Hl).
  cbv zeta in Hb, Hl.
  split_and!.
  - intros Hnil. rewrite Hnil in Hl. exact Hl.
  - intros Hne. destruct (snaps (snapshots this)); [done | exact Hl].
  - exact Hb.
  - intros k this' Hr.
    destruct (revert_true_listeners k this this' Hr) as (H1 & Hn & _).
    split; assumption.
  - intros block. unfold emit_block.
    destruct (listeners_snapshots block (block_listeners this)
                (emitted [EvEmitBlock block] this))
      as (Hs & _ & Hbk & _ & _ & Hls).
    cbv zeta in Hs, Hbk, Hls.
    change (block_listeners (emitted [EvEmitBlock block] this))
      with (block_listeners this) in *.
    rewrite Hs, Hbk, Hls. done.
Qed.




End RevertDetail.

(** ** Pausing, automatic mining, submission and shutdown *)

Section LifecycleProperties.
Context `{Collaborators}.

Lemma land_lor_paused (s : Z) : Z.land (Z.lor s Status.paused) Status.paused = Status.paused.
Proof.
  apply Z.bits_inj'. intros n Hn.
  rewrite Z.land_spec, Z.lor_spec.
  destruct (Z.testbit s n), (Z.testbit Status.paused n); reflexivity.
Qed.

Lemma lxor_lor_paused (s : Z) :
  Z.land s Status.paused = 0 -> Z.lxor (Z.lor s Status.paused) Status.paused = s.
Proof.
  intros Hs. apply Z.bits_inj'. intros n Hn.
  apply (f_equal (fun z => Z.testbit z n)) in Hs.
  rewrite Z.land_spec, Z.bits_0 in Hs.
  rewrite Z.lxor_spec, Z.lor_spec.
  destruct (Z.testbit s n), (Z.testbit Status.paused n); done.
Qed.

Lemma isPaused_pause (this : Blockchain) : isPaused (pause this) = true.
Proof. unfold isPaused, pause. cbn [state set_state]. by rewrite land_lor_paused. Qed.

Lemma pause_not_lifecycle_state (this : Blockchain) (s : Z) :
  Z.land s Status.paused = 0 -> state (pause this) <> s.
Proof.
  intros Hs Heq. unfold pause in Heq. cbn [state set_state] in Heq.
  rewrite <- Heq, land_lor_paused in Hs. discriminate Hs.
Qed.

Lemma set_state_same (this : Blockchain) : set_state (state this) this = this.
Proof. destruct this; reflexivity. Qed.

Lemma set_state_twice (a b : Z) (this : Blockchain) :
  set_state a (set_state b this) = set_state a this.
Proof. reflexivity. Qed.

(** X12: [pause] sets the paused bit and nothing else: it is idempotent,
    it keeps the four lifecycle bits, and the controller then counts as
    paused and no longer as started.  [resume] on a controller that is
    not paused only prints a warning. *)
Theorem pause_sets_one_bit (this : Blockchain) (now : Z) :
  isPaused (pause this) = true /\
  isStarted (pause this) = false /\
  pause (pause this) = pause this /\
  Z.land (state (pause this)) 15 = Z.land (state this) 15 /\
  (isPaused this = false ->
   resume now this
   = ([ConsoleLog "Warning: startMining called when miner was already started"],
      this)).
Proof.
  split; [apply isPaused_pause |]. split; [| split; [| split]].
  - unfold isStarted. apply Z.eqb_neq, pause_not_lifecycle_state. reflexivity.
  - unfold pause, set_state. cbn.
    by rewrite <- Z.lor_assoc, Z.lor_diag.
  - unfold pause. cbn [state set_state].
    rewrite Z.land_lor_distr_l. change (Z.land Status.paused 15) with 0.
    apply Z.lor_0_r.
  - intros Hp. unfold resume. rewrite Hp. reflexivity.
Qed.

(** X13: pausing a running controller and resuming it gives the controller
    back: in interval mode exactly as it was, in instamine mode as it was
    but for the block that [resume] asks the miner for at once, with no
    limit on its transactions. *)
Theorem pause_then_resume (this : Blockchain) (now : Z)
    (Hrunning : isPaused this = false) :
  resume now (pause this)
  = ([], if instamine this then mine now (-1) None false this else this).
Proof.
  unfold resume. rewrite isPaused_pause. cbn [negb].
  unfold isPaused in Hrunning. apply negb_false_iff, Z.eqb_eq in Hrunning.
  assert (Hback : set_state (Z.lxor (state (pause this)) Status.paused) (pause this)
                  = this).
  { unfold pause. cbn [state set_state].
    rewrite (lxor_lor_paused _ Hrunning). destruct this; reflexivity. }
  rewrite Hback. destruct (instamine this); reflexivity.
Qed.

(** X14: while the controller is paused neither a [drain] of the pool nor
    a firing of the interval timer hands anything to the miner, and
    [queueTransaction] returns the hash without waiting for the
    transaction to be finalized. *)
Theorem paused_controller_mines_nothing (this : Blockchain) (now : Z)
    (transaction : Transaction) (executable : bool) (finalized : option JsError) :
  onDrain now (pause this) = pause this /\
  onInterval now (pause this) = pause this /\
  queueTransaction (Returned executable) transaction finalized (pause this)
  = (Returned (tx_hash transaction),
     if executable then [NextTickEmitPendingTransaction transaction] else []).
Proof.
  unfold onDrain, onInterval, mineAll, queueTransaction.
  rewrite isPaused_pause. cbn [orb].
  repeat split; destruct (instamine (pause this)); reflexivity.
Qed.

(** X15: on a controller that instamines and is not paused, each [drain]
    of the pool hands the miner one candidate block limited to one
    transaction: it is numbered one above the head, has the head's hash as
    parent hash, the configured gas limit and the clock's time as
    timestamp.  Nothing else changes. *)
Theorem drain_mines_one_transaction (this : Blockchain) (now : Z)
    (Hinstamine : instamine this = true) (Hrunning : isPaused this = false) :
  exists candidate,
    onDrain now this = emitted [EvMinerMine candidate 1 false] this /\
    header_number (header candidate) = header_number (header (latest this)) + 1 /\
    parentHash (header candidate) = Block_hash (latest this) /\
    gasLimit (header candidate)
    = Options.blockGasLimit (Options.miner (options this)) /\
    timestamp (header candidate) = currentTime now this /\
    transactions candidate = [].
Proof.
  unfold onDrain, mineAll. rewrite Hinstamine, Hrunning.
  exists (readyNextBlock this now (latest this) None).
  split; [reflexivity |]. split; [| repeat split].
  unfold header_number at 1. cbn. apply header_number_from.
Qed.

(** X16: [queueTransaction] rethrows what the pool threw; otherwise it
    schedules the [pendingTransaction] event exactly when the pool reported
    the transaction executable, waits for the transaction to be finalized
    exactly when the controller is not paused and instamines in legacy
    mode, throws exactly when it waited and the finalization carried an
    error, and in every other case returns the transaction's hash. *)
Theorem queueTransaction_outcomes (this : Blockchain) (transaction : Transaction)
    (finalized : option JsError) :
  (forall e,
     queueTransaction (Threw e) transaction finalized this = (Threw e, [])) /\
  (forall executable : bool,
     let r := queueTransaction (Returned executable) transaction finalized this in
     let waits :=
       negb (isPaused this) && instamine this
       && Options.legacyInstamine (Options.miner (options this)) in
     snd r
     = (if executable then [NextTickEmitPendingTransaction transaction] else [])
         ++ (if waits then [AwaitFinalized transaction] else []) /\
     fst r
     = match finalized with
       | Some error => if waits then Threw error
                       else Returned (tx_hash transaction)
       | None => Returned (tx_hash transaction)
       end).
Proof.
  split; [reflexivity |].
  intros executable. cbv zeta. unfold queueTransaction.
  destruct (isPaused this), (instamine this),
    (Options.legacyInstamine (Options.miner (options this))), finalized, executable;
    split; reflexivity.
Qed.

(** X17: what [stop] does, in order: it waits for the start when the
    controller is still starting, removes the VM's listeners, clears the
    pool's listeners, emits [stop], which runs the constructor's listener
    that clears the miner's listeners if it is still registered, and then,
    exactly when the state was [started] or [starting], closes the database
    and leaves the controller stopped; in every other state the controller
    is left as it is.  So a second [stop] only removes the VM's listeners,
    clears the pool's and emits [stop]: it closes nothing and does not
    clear the miner's listeners again; and [stop] on a paused controller
    never closes the database. *)
Theorem stop_closes_database_once (onceStop : bool) (this : Blockchain) :
  let closes :=
    (state this =? Status.started) || (state this =? Status.starting) in
  stop onceStop this
  = ((if state this =? Status.starting then [AwaitStart] else [])
       ++ [VmRemoveAllListeners; PoolClearListeners; EmitStop]
       ++ (if onceStop then [MinerClearListeners] else [])
       ++ (if closes then [DatabaseClose] else []),
     (false, if closes then set_state Status.stopped this else this)) /\
  (let first := stop onceStop this in
   stop (fst (snd first)) (snd (snd first))
   = ([VmRemoveAllListeners; PoolClearListeners; EmitStop], snd first)) /\
  stop onceStop (pause this)
  = ([VmRemoveAllListeners; PoolClearListeners; EmitStop]
       ++ (if onceStop then [MinerClearListeners] else []),
     (false, pause this)).
Proof.
  assert (Hstop : forall (b : bool) (s : Blockchain),
    stop b s
    = ((if state s =? Status.starting then [AwaitStart] else [])
         ++ [VmRemoveAllListeners; PoolClearListeners; EmitStop]
         ++ (if b then [MinerClearListeners] else [])
         ++ (if (state s =? Status.started) || (state s =? Status.starting)
             then [DatabaseClose] else []),
       (false,
        if (state s =? Status.started) || (state s =? Status.starting)
        then set_state Status.stopped s else s))).
  { intros b s. unfold stop.
    destruct (Z.eqb_spec (state s) Status.starting) as [Hs | Hs].
    - rewrite Hs. cbn. destruct b; reflexivity.
    - cbn [app]. destruct (Z.eqb_spec (state s) Status.started) as [Hs' | Hs'].
      + cbn. destruct b; reflexivity.
      + cbn. destruct b; cbn; rewrite ?app_nil_r; reflexivity. }
  assert (Hother : forall (b : bool) (s : Blockchain),
    state s <> Status.started -> state s <> Status.starting ->
    stop b s
    = ([VmRemoveAllListeners; PoolClearListeners; EmitStop]
         ++ (if b then [MinerClearListeners] else []),
       (false, s))).
  { intros b s Hs1 Hs2. rewrite Hstop.
    rewrite (proj2 (Z.eqb_neq _ _) Hs2), (proj2 (Z.eqb_neq _ _) Hs1).
    cbn. destruct b; reflexivity. }
  cbv zeta. split; [apply Hstop |]. split.
  - rewrite (Hstop onceStop this). cbn [fst snd].
    destruct ((state this =? Status.started) || (state this =? Status.starting))
      eqn:Hc.
    + apply (Hother false); cbn; discriminate.
    + apply orb_false_iff in Hc as [Hs1 Hs2].
      apply (Hother false); apply Z.eqb_neq; assumption.
  - apply Hother; apply pause_not_lifecycle_state; reflexivity.
Qed.

End LifecycleProperties.

(** ** More on the clock, the genesis block, candidates and runs *)

Section MoreProperties.
Context `{Collaborators}.

(** X18: on whole numbers within the safe-integer range, where the
    additions of JavaScript numbers are exact, two increases of the clock
    by non-negative amounts add up to one increase by their sum, an
    increase moves neither the offset nor the clock back, and the offset
    stays within the safe-integer range. *)
Theorem increaseTime_accumulates (this : Blockchain) (now a b : Z)
    (Ha : 0 <= a) (Hb : 0 <= b)
    (Hsafe : Z.abs now + Z.abs (timeAdjustment this) + a + b
             <= Options.MAX_SAFE_INTEGER) :
  increaseTime b (snd (increaseTime a this)) = increaseTime (a + b) this /\
  timeAdjustment this <= timeAdjustment (snd (increaseTime a this)) /\
  currentTime now this <= currentTime now (snd (increaseTime a this)) /\
  Z.abs (timeAdjustment (snd (increaseTime (a + b) this)))
  <= Options.MAX_SAFE_INTEGER.
Proof.
  unfold increaseTime.
  destruct (Z.ltb_spec a 0); [lia |]. destruct (Z.ltb_spec b 0); [lia |].
  destruct (Z.ltb_spec (a + b) 0); [lia |].
  cbn. split_and!.
  - rewrite <- Z.add_assoc. reflexivity.
  - lia.
  - unfold currentTime. cbn. apply Z.div_le_mono; lia.
  - lia.
Qed.

(** X19: [setTime] replaces the offset, whatever was added before, and the
    clock then runs on from the given time: read [elapsed] milliseconds
    later it shows the given time plus [elapsed], in whole seconds. *)
Theorem setTime_restarts_clock (this : Blockchain) (timestamp now elapsed seconds : Z) :
  setTime timestamp now (snd (increaseTime seconds this))
  = setTime timestamp now this /\
  currentTime (now + elapsed) (snd (setTime timestamp now this))
  = (timestamp + elapsed) `div` 1000.
Proof.
  split.
  - unfold setTime, increaseTime. reflexivity.
  - unfold currentTime, setTime. cbn. f_equal. lia.
Qed.

(** X20: a controller constructed on an empty database has the genesis
    block as head and as earliest block; the genesis block has number 0, the
    configured gas limit, the root of the trie with the initial accounts as
    state root and the clock's time as timestamp (the configured time, in
    whole seconds, when one is configured); it can be read back by hash
    and by number; no snapshot is live and the pool is empty. *)
Theorem constructor_genesis (opts : Options.EthereumInternalOptions)
    (cb : Options.Address) (now : Z) (root : Buffer)
    (nodes : gmap (list Z) (list Z)) :
  let this := constructor opts cb now root nodes in
  earliest this = latest this /\
  header_number (header (latest this)) = 0 /\
  gasLimit (header (latest this)) = Options.blockGasLimit (Options.miner opts) /\
  stateRoot (header (latest this)) = root /\
  timestamp (header (latest this)) = currentTime now this /\
  (forall t, Options.time (Options.chain opts) = Some t ->
             timestamp (header (latest this)) = t `div` 1000) /\
  getByHash (Block_hash (latest this)) (database this) = Returned (latest this) /\
  db_blocks (database this) !! inl 0 = Some (latest this) /\
  snaps (snapshots this) = [] /\
  pool_transactions (pool this) = [] /\
  isStarted this = true /\
  isPaused this = false.
Proof.
  cbv zeta. unfold constructor.
  destruct (constructor_notices opts) as [i notices]. cbn.
  repeat split.
  all: try (unfold currentTime; cbn;
            destruct (Options.time (Options.chain opts)); f_equal; lia).
  all: try (intros t Ht; rewrite Ht; reflexivity).
  all: try (unfold getByHash, putBlock; cbn;
            rewrite lookup_insert_ne by done; rewrite lookup_insert_eq;
            reflexivity).
  all: unfold putBlock; cbn; apply lookup_insert_eq.
Qed.

(** X21: [simulateTransaction] runs the VM exactly when the supplied gas
    covers the intrinsic gas, and then once, with the gas that is left
    after the intrinsic gas as gas limit (never a negative one), the
    sender as caller and the transaction's block as block. *)
Theorem simulateTransaction_runs_vm (transaction : SimulationTransaction)
    (parentBlock : Block) (this : Blockchain) :
  let intrinsic :=
    calculateIntrinsicGas (sim_data transaction)
      (Options.hardfork (Options.chain (options this))) in
  let this' := snd (simulateTransaction transaction parentBlock this) in
  (sim_gas transaction < intrinsic -> trace this' = trace this) /\
  (intrinsic <= sim_gas transaction ->
   exists vm callOpts,
     trace this' = trace this ++ [EvRunCall vm callOpts] /\
     rc_gasLimit callOpts = Some (sim_gas transaction - intrinsic) /\
     0 <= sim_gas transaction - intrinsic /\
     rc_caller callOpts = sim_from transaction /\
     rc_to callOpts = sim_to transaction /\
     rc_data callOpts = sim_data transaction /\
     rc_value callOpts = sim_value transaction /\
     rc_gasPrice callOpts = sim_gasPrice transaction /\
     rc_block callOpts = sim_block transaction /\
     vm_allowUnlimitedContractSize vm = allowUnlimitedContractSize_vm this).
Proof.
  cbv zeta. unfold simulateTransaction, simulationResult. split; intros Hgas.
  - destruct (Z.leb_spec 0 (sim_gas transaction
      - calculateIntrinsicGas (sim_data transaction)
          (Options.hardfork (Options.chain (options this))))); [lia |].
    cbn. case_match; reflexivity.
  - destruct (Z.leb_spec 0 (sim_gas transaction
      - calculateIntrinsicGas (sim_data transaction)
          (Options.hardfork (Options.chain (options this))))); [| lia].
    match goal with
    | |- context [runCall ?vm ?callOpts] => exists vm, callOpts
    end.
    destruct (runCall _ _) as [result store].
    split; [repeat case_match; reflexivity |].
    repeat split. done.
Qed.


Lemma emitted_blocks_quiet (t : list Event) :
  forallb (fun e => negb (is_emission e)) t = true -> emitted_blocks t = [].
Proof.
  induction t as [|e t IH]; [reflexivity |].
  cbn [forallb]. intros [He Ht]%andb_true_iff.
  destruct e; cbn in He |- *; try discriminate; apply IH, Ht.
Qed.

Lemma step_emitted_blocks (this : Blockchain) (c : Call) :
  emitted_blocks (trace (step this c))
  = emitted_blocks (trace this) ++ mined_heads [c] this.
Proof.
  assert (Hcase : (exists root nodes blockData, c = MinerBlock root nodes blockData)
                  \/ ~ (exists root nodes blockData, c = MinerBlock root nodes blockData)).
  { destruct c; try (right; intros (? & ? & ? & [=]); fail). left. eauto. }
  destruct Hcase as [(root & nodes & blockData & ->) | Hc].
  - cbn [step mined_heads]. unfold minerBlock.
    set (this0 := set_database _ (set_trie_root root this)).
    destruct (handleNewBlockData_trace this0 blockData)
      as (before & Ht & Hq & _ & Hb & _).
    rewrite Ht, handleNewBlockData_latest, Hb.
    change (trace this0) with (trace this).
    rewrite !emitted_blocks_app, (emitted_blocks_quiet _ Hq). reflexivity.
  - destruct (step_quiet this c) as (more & Ht & Hq).
    + intros root nodes blockData ->. apply Hc. eauto.
    + rewrite Ht, emitted_blocks_app, (emitted_blocks_quiet _ Hq).
      destruct c; try reflexivity. exfalso. apply Hc. eauto.
Qed.

(** X22: in every run of the controller the blocks announced on [block]
    are exactly the blocks the miner delivered, each once and in the order
    of delivery, each being the head right after its delivery; no other
    call announces a block. *)
Theorem announced_blocks_are_mined_heads
    (calls : list Call) (opts : Options.EthereumInternalOptions)
    (cb : Options.Address) (now : Z) (root : Buffer)
    (nodes : gmap (list Z) (list Z)) :
  emitted_blocks (trace (run calls (constructor opts cb now root nodes)))
  = mined_heads calls (constructor opts cb now root nodes).
Proof.
  rewrite <- (app_nil_l (mined_heads _ _)).
  rewrite <- (emitted_blocks_quiet _ (constructor_trace_quiet opts cb now root nodes)).
  generalize (constructor opts cb now root nodes).
  induction calls as [|c calls IH]; intros this.
  - cbn. by rewrite app_nil_r.
  - cbn [run fold_left]. change (fold_left step calls (step this c))
      with (run calls (step this c)).
    rewrite IH, step_emitted_blocks, <- app_assoc. f_equal.
    cbn [mined_heads]. destruct c; reflexivity.
Qed.

(** X23: snapshot ids are positions in the list of live snapshots, so they
    are reused: after a successful [revert(k)] the next [snapshot()] returns
    [k] again. *)
Theorem snapshot_id_is_reused (k : Z) (this this' : Blockchain)
    (Hreverted : revert (Some k) this = (Returned true, this')) :
  fst (snapshot this') = k.
Proof.
  destruct (revert_true_state k this this' Hreverted)
    as (snapshot & Hk & Hs & Hsn & _).
  destruct (snapshot_state this') as (-> & _).
  rewrite Hsn, length_take_le; [lia |].
  apply lookup_lt_Some in Hs. lia.
Qed.

End MoreProperties.

Lemma revert_empties_pool_witness :
  let this :=
    @run exampleCollaborators
      (exampleCalls ++ [PoolUpdate [exampleTransaction 11 [[1]]]])
      (exampleChain 0 false false) in
  let this' := snd (@revert exampleCollaborators (Some 2) this) in
  pool this' = {| pool_transactions := []; pool_paused := false |} /\
  miner_paused this' = false.
Proof.
  exact (@revert_empties_pool exampleCollaborators 2
           (@run exampleCollaborators
              (exampleCalls ++ [PoolUpdate [exampleTransaction 11 [[1]]]])
              (exampleChain 0 false false))
           (snd (@revert exampleCollaborators (Some 2)
                   (@run exampleCollaborators
                      (exampleCalls ++ [PoolUpdate [exampleTransaction 11 [[1]]]])
                      (exampleChain 0 false false))))
           ltac:(vm_compute; reflexivity)).
Defined.

Lemma pause_then_resume_witness :
  let this := exampleChain 0 false false in
  @resume exampleCollaborators 5 (pause this)
  = ([], if instamine this
         then @mine exampleCollaborators 5 (-1) None false this else this).
Proof.
  exact (@pause_then_resume exampleCollaborators (exampleChain 0 false false) 5
           ltac:(reflexivity)).
Defined.

Lemma drain_mines_one_transaction_witness :
  let this := exampleChain 0 false false in
  exists candidate,
    @onDrain exampleCollaborators 5 this
    = emitted [EvMinerMine candidate 1 false] this /\
    header_number (header candidate) = header_number (header (latest this)) + 1 /\
    parentHash (header candidate) = @Block_hash exampleCollaborators (latest this) /\
    gasLimit (header candidate)
    = Options.blockGasLimit (Options.miner (options this)) /\
    timestamp (header candidate) = currentTime 5 this /\
    transactions candidate = [].
Proof.
  exact (@drain_mines_one_transaction exampleCollaborators
           (exampleChain 0 false false) 5
           ltac:(reflexivity) ltac:(reflexivity)).
Defined.

Lemma snapshot_id_is_reused_witness :
  let this := @run exampleCollaborators exampleCalls (exampleChain 0 false false) in
  let this' := snd (@revert exampleCollaborators (Some 1) this) in
  fst (@snapshot this') = 1.
Proof.
  exact (@snapshot_id_is_reused exampleCollaborators 1
           (@run exampleCollaborators exampleCalls (exampleChain 0 false false))
           (snd (@revert exampleCollaborators (Some 1)
                   (@run exampleCollaborators exampleCalls
                      (exampleChain 0 false false))))
           ltac:(vm_compute; reflexivity)).
Defined.

Lemma increaseTime_accumulates_witness :
  let this := exampleChain 0 false false in
  increaseTime 4 (snd (increaseTime 3 this)) = increaseTime (3 + 4) this /\
  timeAdjustment this <= timeAdjustment (snd (increaseTime 3 this)) /\
  currentTime 5000 this <= currentTime 5000 (snd (increaseTime 3 this)) /\
  Z.abs (timeAdjustment (snd (increaseTime (3 + 4) this)))
  <= Options.MAX_SAFE_INTEGER.
Proof.
  exact (increaseTime_accumulates
           (exampleChain 0 false false) 5000 3 4
           ltac:(lia) ltac:(lia) ltac:(vm_compute; discriminate)).
Defined.
